(** * canvasapi.paginated_list: a shallow embedding of [PaginatedList]

    The development follows [src/canvasapi/paginated_list.py].  Python values
    decoded from JSON are an inductive type, Python dictionaries are
    association lists in insertion order (iterating a dictionary yields its
    keys in that order), exceptions are an enumeration, and the methods of
    [PaginatedList] are state-passing functions on a record holding the
    attributes of the instance.  Loops that the source does not bound
    ([while self._has_next()]) take a fuel argument. *)

From Stdlib Require Import ZArith List String Ascii Bool Lia.
Import ListNotations.

Set Warnings "-register-all".

Local Open Scope string_scope.
Local Open Scope list_scope.
Local Open Scope Z_scope.

(** ** Python values *)

(** What [response.json()] can return. *)
Inductive json : Type :=
| JNull
| JBool (b : bool)
| JInt (i : Z)
| JFloat (mantissa exponent : Z)
| JStr (s : string)
| JList (items : list json)
| JDict (fields : list (string * json)).

(** A Python [dict] with string keys, in insertion order. *)
Definition dict (V : Type) : Type := list (string * V).

(** The exceptions the module can raise, directly or through a builtin. *)
Inductive exn : Type :=
| AssertionError
| IndexError
| TypeError
| KeyError
| AttributeError
| ValueError.

(** A pure computation that returns or raises. *)
Inductive result (A : Type) : Type :=
| Return (a : A)
| Throw (e : exn).
Arguments Return {A} a.
Arguments Throw {A} e.

Module Py.

(** [d.get(k)] *)
Fixpoint get {V : Type} (k : string) (d : dict V) : option V :=
  match d with
  | [] => None
  | (k', v) :: d' => if String.eqb k k' then Some v else get k d'
  end.

(** [k in d] *)
Definition contains {V : Type} (k : string) (d : dict V) : bool :=
  match get k d with Some _ => true | None => false end.

(** [d[k] = v]: an existing key keeps its place, a new one goes last. *)
Fixpoint set {V : Type} (k : string) (v : V) (d : dict V) : dict V :=
  match d with
  | [] => [(k, v)]
  | (k', v') :: d' =>
      if String.eqb k k' then (k', v) :: d' else (k', v') :: set k v d'
  end.

(** [d.update(other)] *)
Definition update {V : Type} (d other : dict V) : dict V :=
  fold_left (fun acc kv => set (fst kv) (snd kv) acc) other d.

(** Truth value of a dictionary: non-empty. *)
Definition truthy {V : Type} (d : dict V) : bool :=
  match d with [] => false | _ :: _ => true end.

(** [isinstance(v, dict)] *)
Definition is_dict (v : json) : bool :=
  match v with JDict _ => true | _ => false end.

(** [v[k]] for a string [k]: a dictionary raises [KeyError] on a missing
    key; [None], numbers, strings and lists raise [TypeError]. *)
Definition subscript (v : json) (k : string) : result json :=
  match v with
  | JDict d =>
      match get k d with
      | Some x => Return x
      | None => Throw KeyError
      end
  | _ => Throw TypeError
  end.

(** The one-character strings a [for] loop over a string yields. *)
Fixpoint chars (s : string) : list json :=
  match s with
  | EmptyString => []
  | String c s' => JStr (String c EmptyString) :: chars s'
  end.

(** [for element in v]: the values a loop over [v] visits. *)
Definition iterate (v : json) : result (list json) :=
  match v with
  | JList l => Return l
  | JDict d => Return (map (fun kv => JStr (fst kv)) d)
  | JStr s => Return (chars s)
  | _ => Throw TypeError
  end.

End Py.

(** ** The regular expression of [_get_next_page]

    The pattern is a non-capturing alternation of the two escaped base URLs
    followed by one group, a greedy dot-star.  Searching a URL finds the
    leftmost position at which the first or else the second base URL starts;
    group 1 is what follows up to the end of the line (a dot does not match
    a newline). *)
Module Re.

Definition newline : ascii := ascii_of_nat 10.

(** [s] with the literal [p] removed from its front. *)
Fixpoint strip_prefix (p s : string) : option string :=
  match p, s with
  | EmptyString, _ => Some s
  | String a p', String b s' =>
      if Ascii.eqb a b then strip_prefix p' s' else None
  | String _ _, EmptyString => None
  end.

(** What the greedy dot-star group captures at the front of [s]. *)
Fixpoint dot_star (s : string) : string :=
  match s with
  | EmptyString => EmptyString
  | String c s' =>
      if Ascii.eqb c newline then EmptyString else String c (dot_star s')
  end.

(** The alternation tried at the front of [s]: [b] first, then [q]. *)
Definition match_here (b q s : string) : option string :=
  match strip_prefix b s with
  | Some rest => Some (dot_star rest)
  | None =>
      match strip_prefix q s with
      | Some rest => Some (dot_star rest)
      | None => None
      end
  end.

(** [re.search]: group 1 of the leftmost match, [None] without a match. *)
Fixpoint search (b q s : string) : option string :=
  match match_here b q s with
  | Some g => Some g
  | None =>
      match s with
      | EmptyString => None
      | String _ s' => search b q s'
      end
  end.

(** [s] contains [p] at some position. *)
Definition occurs_in (p s : string) : Prop :=
  exists before after, s = (before ++ p ++ after)%string.

End Re.

(** ** What the requester exchanges *)

(** The arguments of [requester.request]. *)
Record Request : Type := mkRequest {
  req_method : string;
  req_endpoint : option string;
  req_url : option string;
  req_params : dict json
}.

(** A response: the decoded body and [response.links], the relations of the
    [Link] header, each a dictionary of strings. *)
Record Response : Type := mkResponse {
  links : dict (dict string);
  body : json
}.

(** The requester: its two base URLs, its [request] method and the state
    that method may read and change. *)
Record Requester (RS : Type) : Type := mkRequester {
  base_url : string;
  new_quizzes_url : string;
  session : RS;
  request : RS -> Request -> RS * Response
}.
Arguments mkRequester {RS} base_url new_quizzes_url session request.
Arguments base_url {RS} r.
Arguments new_quizzes_url {RS} r.
Arguments session {RS} r.
Arguments request {RS} r _ _.

(** Arguments of [__getitem__]: a value, or a slice of optional integers. *)
Inductive index_arg : Type :=
| IdxValue (v : json)
| IdxSlice (start stop step : option Z).

(** Sequencing of pure computations, and [try ... except KeyError]. *)
Definition bind {A B : Type} (r : result A) (k : A -> result B) : result B :=
  match r with
  | Return a => k a
  | Throw e => Throw e
  end.

Notation "x <- r ;; k" := (bind r (fun x => k))
  (at level 61, r at next level, right associativity).

Definition except_KeyError {A : Type} (r handler : result A) : result A :=
  match r with
  | Throw KeyError => handler
  | _ => r
  end.

(** [v or d] for an optional integer: [None] and [0] are falsy. *)
Definition or_default (v : option Z) (d : Z) : Z :=
  match v with
  | Some x => if x =? 0 then d else x
  | None => d
  end.

(** [isinstance(v, int)]: [bool] is a subclass of [int]. *)
Definition as_int (v : json) : option Z :=
  match v with
  | JInt i => Some i
  | JBool b => Some (if b then 1 else 0)
  | _ => None
  end.

(** The attributes of a [_Slice] other than [_list], which is the instance
    the operations below are applied to. *)
Record _Slice : Type := mk_Slice {
  _start : Z;
  _stop : option Z;
  _step : Z
}.

(** [_Slice.__init__]: with [stop] left out, [self._stop < 0] compares
    [None] with an integer, which raises [TypeError]. *)
Definition _Slice__init__ (start stop step : option Z) : result _Slice :=
  let start' := or_default start 0 in
  let step' := or_default step 1 in
  if start' <? 0 then Throw IndexError
  else
    match stop with
    | None => Throw TypeError
    | Some s =>
        if s <? 0 then Throw IndexError
        else Return (mk_Slice start' stop step')
    end.

(** [_Slice._finished] *)
Definition _finished (sl : _Slice) (index : Z) : bool :=
  match _stop sl with
  | Some s => s <=? index
  | None => false
  end.

Section PaginatedList.

(** The type of the elements and of the requester's state. *)
Context {T RS : Type}.

(** The attributes of an instance.  [requests] is a ghost log of the
    requests issued so far, to count page fetches. *)
Record PaginatedList : Type := mkPaginatedList {
  _elements : list T;
  _requester : Requester RS;
  _content_class : dict json -> T;
  _first_url : string;
  _first_params : dict json;
  _next_url : option string;
  _next_params : dict json;
  _extra_attribs : dict json;
  _request_method : string;
  _root : option string;
  _url_override : option string;
  requests : list Request
}.

(** A stateful computation: it returns or raises, in a new state, or the
    fuel of a loop ran out. *)
Inductive outcome (A : Type) : Type :=
| Ok (a : A) (self : PaginatedList)
| Raise (e : exn) (self : PaginatedList)
| OutOfFuel.
Arguments Ok {A} a self.
Arguments Raise {A} e self.
Arguments OutOfFuel {A}.

(** [PaginatedList.__init__] *)
Definition __init__ (content_class : dict json -> T)
    (requester : Requester RS) (request_method first_url : string)
    (extra_attribs : option (dict json))
    (root url_override : option string) (kwargs : dict json)
    : PaginatedList :=
  let per_page :=
    match Py.get "per_page" kwargs with
    | Some v => v
    | None => JInt 100
    end in
  let first_params := Py.set "per_page" per_page kwargs in
  {| _elements := [];
     _requester := requester;
     _content_class := content_class;
     _first_url := first_url;
     _first_params := first_params;
     _next_url := Some first_url;
     _next_params := first_params;
     _extra_attribs :=
       match extra_attribs with Some d => d | None => [] end;
     _request_method := request_method;
     _root := root;
     _url_override := url_override;
     requests := [] |}.

(** [_has_next] *)
Definition _has_next (self : PaginatedList) : bool :=
  match _next_url self with
  | Some _ => true
  | None => false
  end.

(** [_is_larger_than] *)
Definition _is_larger_than (self : PaginatedList) (index : Z) : bool :=
  (index <? Z.of_nat (List.length (_elements self))) || _has_next self.

(** *** [_get_next_page], in the order of its statements *)

(** The request of the next page. *)
Definition next_request (self : PaginatedList) : Request :=
  {| req_method := _request_method self;
     req_endpoint := _next_url self;
     req_url := _url_override self;
     req_params := _next_params self |}.

(** The response to it. *)
Definition next_response (self : PaginatedList) : Response :=
  let rq := _requester self in
  snd (request rq (session rq) (next_request self)).

(** The requester with another state. *)
Definition with_session (rq : Requester RS) (s : RS) : Requester RS :=
  {| base_url := base_url rq;
     new_quizzes_url := new_quizzes_url rq;
     session := s;
     request := request rq |}.

(** The requester once it has answered. *)
Definition requester_after (self : PaginatedList) : Requester RS :=
  let rq := _requester self in
  with_session rq (fst (request rq (session rq) (next_request self))).

(** The state once the response is in and [_next_url] is reset. *)
Definition after_request (self : PaginatedList) : PaginatedList :=
  {| _elements := _elements self;
     _requester := requester_after self;
     _content_class := _content_class self;
     _first_url := _first_url self;
     _first_params := _first_params self;
     _next_url := None;
     _next_params := _next_params self;
     _extra_attribs := _extra_attribs self;
     _request_method := _request_method self;
     _root := _root self;
     _url_override := _url_override self;
     requests := requests self ++ [next_request self] |}.

(** The state once the next cursor is stored and the parameters are
    emptied. *)
Definition after_cursor (self : PaginatedList) (url : option string)
    : PaginatedList :=
  {| _elements := _elements self;
     _requester := _requester self;
     _content_class := _content_class self;
     _first_url := _first_url self;
     _first_params := _first_params self;
     _next_url := url;
     _next_params := [];
     _extra_attribs := _extra_attribs self;
     _request_method := _request_method self;
     _root := _root self;
     _url_override := _url_override self;
     requests := requests self |}.

(** A relation of the [Link] header as the dictionary [next_link]. *)
Definition header_link (l : dict string) : dict json :=
  map (fun kv => (fst kv, JStr (snd kv))) l.

(** [data["meta"]["pagination"]["next"]] *)
Definition meta_pagination_next (data : json) : result json :=
  meta <- Py.subscript data "meta" ;;
  pagination <- Py.subscript meta "pagination" ;;
  Py.subscript pagination "next".

(** The local [next_link]: the header first, the [meta] property of the
    body when the response has no links at all. *)
Definition next_link (response : Response) : result (option (dict json)) :=
  if Py.truthy (links response) then
    Return (option_map header_link (Py.get "next" (links response)))
  else
    match body response with
    | JDict d =>
        if Py.contains "meta" d then
          except_KeyError
            (url <- meta_pagination_next (body response) ;;
             Return (Some [("url", url); ("rel", JStr "next")]))
            (Return None)
        else Return None
    | _ => Return None
    end.

(** The new [_next_url]: group 1 of the search in [next_link["url"]]. *)
Definition next_locator (base quizzes : string) (link : option (dict json))
    : result (option string) :=
  match link with
  | None => Return None
  | Some l =>
      if Py.truthy l then
        match Py.get "url" l with
        | None => Throw KeyError
        | Some (JStr url) =>
            match Re.search base quizzes url with
            | Some g => Return (Some g)
            | None => Throw AttributeError
            end
        | Some _ => Throw TypeError
        end
      else Return None
  end.

(** Cursor extraction: both steps on one response. *)
Definition next_cursor (base quizzes : string) (response : Response)
    : result (option string) :=
  link <- next_link response ;;
  next_locator base quizzes link.

(** [data = data[self._root]] when a root is configured. *)
Definition unwrap_root (root : option string) (data : json) : result json :=
  match root with
  | None | Some EmptyString => Return data
  | Some r =>
      match Py.subscript data r with
      | Throw KeyError => Throw ValueError
      | other => other
      end
  end.

(** The loop that fills [content]. *)
Fixpoint build_content (content_class : dict json -> T) (extra : dict json)
    (items : list json) : result (list T) :=
  match items with
  | [] => Return []
  | JNull :: rest => build_content content_class extra rest
  | JDict d :: rest =>
      content <- build_content content_class extra rest ;;
      Return (content_class (Py.update d extra) :: content)
  | _ :: _ => Throw AttributeError
  end.

(** The elements of one decoded body. *)
Definition page_content (content_class : dict json -> T)
    (root : option string) (extra : dict json) (data : json)
    : result (list T) :=
  data' <- unwrap_root root data ;;
  items <- Py.iterate data' ;;
  build_content content_class extra items.

(** The cursor [self] extracts from a response. *)
Definition cursor_of (self : PaginatedList) (response : Response)
    : result (option string) :=
  next_cursor (base_url (_requester self)) (new_quizzes_url (_requester self))
    response.

(** The content [self] builds from a response. *)
Definition content_of (self : PaginatedList) (response : Response)
    : result (list T) :=
  page_content (_content_class self) (_root self) (_extra_attribs self)
    (body response).

(** [_get_next_page]: the request, the reset of [_next_url], the new cursor
    and then the content; an exception leaves the state as the statements
    before it made it. *)
Definition _get_next_page (self : PaginatedList) : outcome (list T) :=
  let response := next_response self in
  let self1 := after_request self in
  match cursor_of self response with
  | Throw e => Raise e self1
  | Return url =>
      let self2 := after_cursor self1 url in
      match content_of self response with
      | Throw e => Raise e self2
      | Return content => Ok content self2
      end
  end.

(** *** Growth *)

(** [self._elements += new_elements] *)
Definition extend (self : PaginatedList) (new_elements : list T)
    : PaginatedList :=
  {| _elements := _elements self ++ new_elements;
     _requester := _requester self;
     _content_class := _content_class self;
     _first_url := _first_url self;
     _first_params := _first_params self;
     _next_url := _next_url self;
     _next_params := _next_params self;
     _extra_attribs := _extra_attribs self;
     _request_method := _request_method self;
     _root := _root self;
     _url_override := _url_override self;
     requests := requests self |}.

(** [_grow] *)
Definition _grow (self : PaginatedList) : outcome (list T) :=
  match _get_next_page self with
  | Ok new_elements self' => Ok new_elements (extend self' new_elements)
  | Raise e self' => Raise e self'
  | OutOfFuel => OutOfFuel
  end.

(** [_get_up_to_index]: the loop test comes before a unit of fuel is
    spent, so a loop that has nothing to do needs none. *)
Fixpoint _get_up_to_index (fuel : nat) (self : PaginatedList) (index : Z)
    : outcome unit :=
  if (Z.of_nat (List.length (_elements self)) <=? index) && _has_next self
  then
    match fuel with
    | O => OutOfFuel
    | S fuel' =>
        match _grow self with
        | Ok _ self' => _get_up_to_index fuel' self' index
        | Raise e self' => Raise e self'
        | OutOfFuel => OutOfFuel
        end
    end
  else Ok tt self.

(** *** Index and slice access *)

(** The integer branch of [__getitem__]. *)
Definition getitem_int (fuel : nat) (self : PaginatedList) (index : Z)
    : outcome T :=
  if index <? 0 then Raise IndexError self
  else
    match _get_up_to_index fuel self index with
    | Ok _ self' =>
        match nth_error (_elements self') (Z.to_nat index) with
        | Some element => Ok element self'
        | None => Raise IndexError self'
        end
    | Raise e self' => Raise e self'
    | OutOfFuel => OutOfFuel
    end.

(** What [__getitem__] returns: an element or a slice view. *)
Inductive item : Type :=
| Element (element : T)
| View (sl : _Slice).

(** [__getitem__]: the assertion, then the integer or the slice branch. *)
Definition __getitem__ (fuel : nat) (self : PaginatedList)
    (index : index_arg) : outcome item :=
  match index with
  | IdxValue v =>
      match as_int v with
      | None => Raise AssertionError self
      | Some i =>
          match getitem_int fuel self i with
          | Ok element self' => Ok (Element element) self'
          | Raise e self' => Raise e self'
          | OutOfFuel => OutOfFuel
          end
      end
  | IdxSlice start stop step =>
      match _Slice__init__ start stop step with
      | Return sl => Ok (View sl) self
      | Throw e => Raise e self
      end
  end.

(** *** The generators

    A generator is a program point and a function for one [next()]: it
    yields [Some] element and the point to resume at, or [None] when the
    generator returns. *)

(** [PaginatedList.__iter__]: inside the first loop at a position of
    [_elements], inside the loop over [new_elements], or returned. *)
Inductive iter_point : Type :=
| Replaying (position : nat)
| InPage (rest : list T)
| Returned.

(** The [while self._has_next()] loop up to its next [yield]. *)
Fixpoint fetch_loop (fuel : nat) (self : PaginatedList)
    : outcome (option T * iter_point) :=
  if _has_next self then
    match fuel with
    | O => OutOfFuel
    | S fuel' =>
        match _grow self with
        | Ok [] self' => fetch_loop fuel' self'
        | Ok (element :: rest) self' => Ok (Some element, InPage rest) self'
        | Raise e self' => Raise e self'
        | OutOfFuel => OutOfFuel
        end
    end
  else Ok (None, Returned) self.

(** One [next()] of [PaginatedList.__iter__].  The first loop reads the
    store as it is when it is resumed, as Python's list iterator does. *)
Definition __iter__ (fuel : nat) (point : iter_point)
    (self : PaginatedList) : outcome (option T * iter_point) :=
  match point with
  | Replaying position =>
      match nth_error (_elements self) position with
      | Some element => Ok (Some element, Replaying (S position)) self
      | None => fetch_loop fuel self
      end
  | InPage (element :: rest) => Ok (Some element, InPage rest) self
  | InPage [] => fetch_loop fuel self
  | Returned => Ok (None, Returned) self
  end.

(** One [next()] of [_Slice.__iter__]: the point is the current [index], or
    [None] once the generator has returned. *)
Definition _Slice__iter__ (fuel : nat) (sl : _Slice) (point : option Z)
    (self : PaginatedList) : outcome (option T * option Z) :=
  match point with
  | None => Ok (None, None) self
  | Some index =>
      if _finished sl index then Ok (None, None) self
      else if _is_larger_than self index then
        match getitem_int fuel self index with
        | Ok element self' => Ok (Some element, Some (index + _step sl)) self'
        | Raise IndexError self' => Ok (None, None) self'
        | Raise e self' => Raise e self'
        | OutOfFuel => OutOfFuel
        end
      else Ok (None, None) self
  end.

(** [list(generator)]: [next()] until the generator returns. *)
Fixpoint drain {P : Type}
    (next : P -> PaginatedList -> outcome (option T * P))
    (fuel : nat) (point : P) (self : PaginatedList) : outcome (list T) :=
  match fuel with
  | O => OutOfFuel
  | S fuel' =>
      match next point self with
      | Ok (Some element, point') self' =>
          match drain next fuel' point' self' with
          | Ok yielded self'' => Ok (element :: yielded) self''
          | other => other
          end
      | Ok (None, _) self' => Ok [] self'
      | Raise e self' => Raise e self'
      | OutOfFuel => OutOfFuel
      end
  end.

(** [list(self)]: one full pass of [__iter__]. *)
Definition iterate (fuel : nat) (self : PaginatedList) : outcome (list T) :=
  drain (__iter__ fuel) fuel (Replaying 0) self.

(** [list(self[start:stop:step])] for an already built view. *)
Definition iterate_slice (fuel : nat) (sl : _Slice) (self : PaginatedList)
    : outcome (list T) :=
  drain (_Slice__iter__ fuel sl) fuel (Some (_start sl)) self.

(** *** Notions the properties are stated with *)

(** [n] further passes of [__iter__] after a first one, each run to its
    end; the result is what the last pass yielded. *)
Fixpoint repeat_iterate (fuel n : nat) (self : PaginatedList)
    : outcome (list T) :=
  match n with
  | O => iterate fuel self
  | S n' =>
      match iterate fuel self with
      | Ok _ self' => repeat_iterate fuel n' self'
      | other => other
      end
  end.

(** A pass resumed inside the [while] loop of [__iter__]: the loop runs
    to its next [yield] on [loop_fuel], the generator is drained after it. *)
Definition resume_pass (loop_fuel fuel n : nat) (self : PaginatedList)
    : outcome (list T) :=
  match fetch_loop loop_fuel self with
  | Ok (Some element, point) self' =>
      match drain (__iter__ fuel) n point self' with
      | Ok yielded self'' => Ok (element :: yielded) self''
      | other => other
      end
  | Ok (None, _) self' => Ok [] self'
  | Raise e self' => Raise e self'
  | OutOfFuel => OutOfFuel
  end.

(** The state invariant between two states of one instance: elements are
    only appended, and an absent cursor stays absent. *)
Definition grows (before after : PaginatedList) : Prop :=
  (exists appended, _elements after = _elements before ++ appended) /\
  (_next_url before = None -> _next_url after = None).

(** An operation keeps the invariant when the state it ends in, by a
    return or by an exception, extends the one it started in. *)
Definition preserved {A : Type} (before : PaginatedList) (o : outcome A)
    : Prop :=
  match o with
  | Ok _ after | Raise _ after => grows before after
  | OutOfFuel => True
  end.

(** A mocked requester: whatever it is asked, its next answers are these
    responses, in this order. *)
Fixpoint answers (rq : Requester RS) (responses : list Response) : Prop :=
  match responses with
  | [] => True
  | r :: rest =>
      forall req,
        snd (request rq (session rq) req) = r /\
        answers (with_session rq (fst (request rq (session rq) req))) rest
  end.

(** A finite source of pages for [self]: every response but the last
    carries a cursor, the last one none, and each body builds a page. *)
Inductive finite_source (self : PaginatedList)
    : list Response -> list (list T) -> Prop :=
| source_last r page :
    cursor_of self r = Return None ->
    content_of self r = Return page ->
    finite_source self [r] [page]
| source_more r url page rest pages :
    cursor_of self r = Return (Some url) ->
    content_of self r = Return page ->
    finite_source self rest pages ->
    finite_source self (r :: rest) (page :: pages).

End PaginatedList.

Arguments PaginatedList T RS : clear implicits.
Arguments outcome T RS A : clear implicits.
Arguments item T : clear implicits.
Arguments iter_point T : clear implicits.
Arguments Ok {T RS A} a self.
Arguments Raise {T RS A} e self.
Arguments OutOfFuel {T RS A}.

(** ** A scripted requester and a small collection, to run the model on *)
Module Mock.

(** The requester of a test: it hands out the scripted responses one by
    one, and an empty page once they are used up. *)
Definition scripted (base quizzes : string) (script : list Response)
    : Requester (list Response) :=
  {| base_url := base;
     new_quizzes_url := quizzes;
     session := script;
     request := fun s _ =>
       match s with
       | r :: s' => (s', r)
       | [] => ([], mkResponse [] (JList []))
       end |}.

Definition api : string := "https://canvas.test/api/v1/".
Definition quiz_api : string := "https://canvas.test/api/quiz/v1/".

Definition raw (name : string) : json := JDict [("name", JStr name)].

(** The [Link] header of a page that has a successor, and of the last. *)
Definition link_to (url : string) : dict (dict string) :=
  [("current", [("url", (api ++ "courses")%string); ("rel", "current")]);
   ("next", [("url", url); ("rel", "next")])].
Definition link_last : dict (dict string) :=
  [("current", [("url", (api ++ "courses")%string); ("rel", "current")])].

(** Seven items on three pages, with a null entry on the second. *)
Definition three_pages : list Response :=
  [ mkResponse (link_to (api ++ "courses?page=2")%string)
      (JList [raw "a"; raw "b"; raw "c"]);
    mkResponse (link_to (api ++ "courses?page=3")%string)
      (JList [raw "d"; JNull; raw "e"]);
    mkResponse link_last (JList [raw "f"; raw "g"]) ].

(** A collection of raw dictionaries over a script. *)
Definition collection (root : option string) (script : list Response)
    : PaginatedList (dict json) (list Response) :=
  __init__ (fun d => d) (scripted api quiz_api script) "GET" "courses"
    None root None [].

Definition courses := collection None three_pages.

(** Bodies that page through their [meta] property. *)
Definition meta_next (url : string) : json :=
  JDict [("pagination", JDict [("next", JStr url)])].
Definition with_meta (meta : json) : json :=
  JDict [("items", JList [raw "a"]); ("meta", meta)].

Definition name (s : string) : dict json := [("name", JStr s)].

End Mock.

(** ** Notions for the further properties *)

Section Notions.

Context {T RS : Type}.

(** The dictionaries among the raw items of a page, in order. *)
Fixpoint raw_dicts (items : list json) : list (dict json) :=
  match items with
  | [] => []
  | JDict d :: rest => d :: raw_dicts rest
  | _ :: rest => raw_dicts rest
  end.

(** A raw item the loop of [_get_next_page] can handle: [None], which it
    skips, or a dictionary. *)
Definition usable_item (v : json) : bool :=
  match v with
  | JNull | JDict _ => true
  | _ => false
  end.

(** A text without a newline. *)
Fixpoint one_line (s : string) : bool :=
  match s with
  | EmptyString => true
  | String c s' => negb (Ascii.eqb c Re.newline) && one_line s'
  end.

(** The walk of [_Slice.__iter__] over a plain list: from [index] in steps
    of [_step], up to [_stop], the end of the list or an index below 0.
    [None] when [k] steps do not finish it. *)
Fixpoint list_slice (k : nat) (all : list T) (sl : _Slice) (index : Z)
    : option (list T) :=
  match k with
  | O => None
  | S k' =>
      if _finished sl index then Some []
      else if index <? 0 then Some []
      else
        match nth_error all (Z.to_nat index) with
        | Some x =>
            option_map (cons x) (list_slice k' all sl (index + _step sl))
        | None => Some []
        end
  end.

(** [ys] is the slice of [all] that [sl] describes, for a positive step:
    its [j]-th element is the element of [all] at [_start + j * _step], as
    long as that index is below [_stop] and inside [all]. *)
Definition slice_of (all : list T) (sl : _Slice) (ys : list T) : Prop :=
  forall j : nat,
    nth_error ys j =
      let index := _start sl + Z.of_nat j * _step sl in
      if _finished sl index then None else nth_error all (Z.to_nat index).

(** The collection stands for the list [all] with [n] responses still to
    come: it is exhausted and holds [all], or it holds the first pages of a
    finite source whose remaining pages complete [all]. *)
Inductive backed_by (all : list T) : nat -> PaginatedList T RS -> Prop :=
| backed_exhausted self :
    _has_next self = false ->
    _elements self = all ->
    backed_by all O self
| backed_pending self responses pages :
    _has_next self = true ->
    finite_source self responses pages ->
    answers (_requester self) responses ->
    _elements self ++ List.concat pages = all ->
    backed_by all (List.length responses) self.

(** A property of the state holds where an operation ends. *)
Definition ends_in {A : Type} (P : PaginatedList T RS -> Prop)
    (o : outcome T RS A) : Prop :=
  match o with
  | Ok _ after | Raise _ after => P after
  | OutOfFuel => True
  end.

(** Only the first request of a collection carries parameters: the logged
    requests after the first have none, and neither has the next request
    once one has been issued. *)
Definition first_request_only (self : PaginatedList T RS) : Prop :=
  (forall i req,
      nth_error (requests self) (S i) = Some req -> req_params req = []) /\
  (requests self <> [] -> _has_next self = true -> _next_params self = []).

(** The attributes no method assigns after [__init__], and the log, which
    is only appended to. *)
Definition same_configuration (before after : PaginatedList T RS) : Prop :=
  _content_class after = _content_class before /\
  base_url (_requester after) = base_url (_requester before) /\
  new_quizzes_url (_requester after) = new_quizzes_url (_requester before) /\
  _first_url after = _first_url before /\
  _first_params after = _first_params before /\
  _extra_attribs after = _extra_attribs before /\
  _request_method after = _request_method before /\
  _root after = _root before /\
  _url_override after = _url_override before /\
  exists issued, requests after = requests before ++ issued.

End Notions.

(** ** Further collections to run the model on *)
Module Cases.

Import Mock.

(** The state an operation ends in. *)
Definition state_after {T RS A : Type} (o : outcome T RS A)
    (otherwise : PaginatedList T RS) : PaginatedList T RS :=
  match o with
  | Ok _ self | Raise _ self => self
  | OutOfFuel => otherwise
  end.

(** The seven courses of [Mock.courses] and their pages. *)
Definition seven : list (dict json) :=
  [name "a"; name "b"; name "c"; name "d"; name "e"; name "f"; name "g"].
Definition seven_pages : list (list (dict json)) :=
  [[name "a"; name "b"; name "c"]; [name "d"; name "e"];
   [name "f"; name "g"]].

(** [Mock.courses] once [courses[4]] has been read: two pages are stored
    and the third is still to fetch. *)
Definition courses_read_to_4 : PaginatedList (dict json) (list Response) :=
  state_after (__getitem__ 2 courses (IdxValue (JInt 4))) courses.

(** A source whose second page links to a host that is neither base URL,
    with its first page already fetched. *)
Definition stray_second_page : list Response :=
  [ mkResponse (link_to (api ++ "courses?page=2")%string)
      (JList [raw "a"; raw "b"]);
    mkResponse (link_to "https://elsewhere.test/courses?page=3")
      (JList [raw "c"]) ].
Definition stray_after_first : PaginatedList (dict json) (list Response) :=
  state_after (_grow (collection None stray_second_page))
    (collection None stray_second_page).

(** A page whose body is a dictionary without the [items] root. *)
Definition no_items : PaginatedList (dict json) (list Response) :=
  collection (Some "items")
    [mkResponse link_last (JDict [("data", JList [raw "a"])])].

(** A last page that marks its end with a null [next]. *)
Definition null_next : PaginatedList (dict json) (list Response) :=
  collection (Some "items")
    [mkResponse []
       (with_meta (JDict [("pagination", JDict [("next", JNull)])]))].


End Cases.

(** ** Properties *)

(** Closed goals about the model are settled by evaluation. *)
Ltac run := vm_compute; reflexivity.

Section Properties.

Context {T RS : Type}.
Implicit Types (self later : PaginatedList T RS) (fuel : nat).

(** *** Index access *)

Lemma get_up_to_index_enough fuel self index :
  index < Z.of_nat (List.length (_elements self)) ->
  _get_up_to_index fuel self index = Ok tt self.
Proof.
  intros Hlen.
  destruct fuel; simpl;
    replace (Z.of_nat (List.length (_elements self)) <=? index) with false
      by (symmetry; apply Z.leb_gt; exact Hlen);
    reflexivity.
Qed.

(** A successful integer access leaves the element in the store. *)
Lemma getitem_int_ok fuel self index element self' :
  getitem_int fuel self index = Ok element self' ->
  0 <= index /\
  nth_error (_elements self') (Z.to_nat index) = Some element.
Proof.
  unfold getitem_int.
  destruct (index <? 0) eqn:Hneg; [discriminate|].
  apply Z.ltb_ge in Hneg.
  destruct (_get_up_to_index fuel self index) as [[] s| |]; try discriminate.
  destruct (nth_error (_elements s) (Z.to_nat index)) eqn:Hnth;
    try discriminate.
  intros H; inversion H; subst. split; [exact Hneg | exact Hnth].
Qed.

Lemma getitem_int_stored fuel self index element :
  0 <= index ->
  nth_error (_elements self) (Z.to_nat index) = Some element ->
  getitem_int fuel self index = Ok element self.
Proof.
  intros Hpos Hnth. unfold getitem_int.
  replace (index <? 0) with false by (symmetry; apply Z.ltb_ge; exact Hpos).
  rewrite get_up_to_index_enough.
  - rewrite Hnth. reflexivity.
  - assert (Z.to_nat index < List.length (_elements self))%nat
      by (apply nth_error_Some; rewrite Hnth; discriminate).
    lia.
Qed.

(** C1 (the code's behaviour at the claim's slice): building the view of
    a slice from 0 with no stop and step 2 raises [TypeError], whatever the
    collection holds, and no slice without a stop is ever built: the
    constructor compares the missing stop with 0. *)
Theorem open_ended_slice_raises :
  (forall fuel self,
      __getitem__ fuel self (IdxSlice (Some 0) None (Some 2))
      = Raise TypeError self) /\
  (forall start step sl, _Slice__init__ start None step <> Return sl).
Proof.
  split.
  - intros fuel self. reflexivity.
  - intros start step sl. unfold _Slice__init__.
    destruct (or_default start 0 <? 0); discriminate.
Qed.

(** C7: for every negative integer [i], [collection[i]] raises
    [IndexError] and hands back the very state it was called in: no
    request is logged, no element appended, the cursor untouched. *)
Theorem getitem_negative_index fuel self (i : Z) :
  i < 0 ->
  __getitem__ fuel self (IdxValue (JInt i)) = Raise IndexError self.
Proof.
  intros Hneg. simpl. unfold getitem_int.
  apply Z.ltb_lt in Hneg. rewrite Hneg. reflexivity.
Qed.

(** C9: an index that is neither an integer nor a slice fails the
    assertion of [__getitem__] with [AssertionError], in the state the
    call started in. *)
Theorem getitem_rejects_other_types fuel self (v : json) :
  as_int v = None ->
  __getitem__ fuel self (IdxValue v) = Raise AssertionError self.
Proof.
  intros Hint. simpl. rewrite Hint. reflexivity.
Qed.

(** C8: once [collection[i]] has returned an element, every later access
    to index [i] returns that element and the state it was called in, so
    without a page fetch: right after the first access, and in every later
    state of the collection, whose store extends the one the first access
    left. *)
Theorem getitem_idempotent fuel self (i : Z) (element : T) self' :
  __getitem__ fuel self (IdxValue (JInt i)) = Ok (Element element) self' ->
  (forall fuel',
      __getitem__ fuel' self' (IdxValue (JInt i))
      = Ok (Element element) self') /\
  (forall fuel' later,
      (exists appended, _elements later = _elements self' ++ appended) ->
      __getitem__ fuel' later (IdxValue (JInt i))
      = Ok (Element element) later).
Proof.
  simpl. intros Hfirst.
  destruct (getitem_int fuel self i) as [x s| |] eqn:Hget; try discriminate.
  inversion Hfirst; subst x s.
  apply getitem_int_ok in Hget. destruct Hget as [Hpos Hnth].
  assert (Hlater : forall fuel' later,
             (exists appended,
                 _elements later = _elements self' ++ appended) ->
             getitem_int fuel' later i = Ok element later).
  { intros fuel' later [appended Happ].
    apply getitem_int_stored; [exact Hpos|].
    rewrite Happ. rewrite nth_error_app1; [exact Hnth|].
    apply nth_error_Some. rewrite Hnth. discriminate. }
  split.
  - intros fuel'. rewrite (Hlater fuel' self'); [reflexivity|].
    exists []. symmetry. apply app_nil_r.
  - intros fuel' later Hext. rewrite (Hlater fuel' later Hext).
    reflexivity.
Qed.

(** *** Cursor extraction *)

(** What [_get_next_page] and [_grow] do once the cursor is known. *)
Lemma get_next_page_cursor_error self e :
  cursor_of self (next_response self) = Throw e ->
  _get_next_page self = Raise e (after_request self) /\
  _grow self = Raise e (after_request self).
Proof.
  intros Hcur. unfold _grow, _get_next_page. rewrite Hcur. split; reflexivity.
Qed.

Lemma get_next_page_cursor_ok self url :
  cursor_of self (next_response self) = Return url ->
  _get_next_page self =
    match content_of self (next_response self) with
    | Return content => Ok content (after_cursor (after_request self) url)
    | Throw e => Raise e (after_cursor (after_request self) url)
    end.
Proof.
  intros Hcur. unfold _get_next_page. rewrite Hcur. reflexivity.
Qed.

Lemma subscript_not_dict (v : json) (k : string) :
  Py.is_dict v = false -> Py.subscript v k = Throw TypeError.
Proof. destruct v; simpl; intros H; try reflexivity; discriminate. Qed.

Lemma contains_get {V : Type} (k : string) (d : dict V) (v : V) :
  Py.get k d = Some v -> Py.contains k d = true.
Proof. unfold Py.contains. intros ->. reflexivity. Qed.

(** C10: when the response has no links and the [meta] property of its
    body, or the [pagination] property inside it, is there but is not a
    dictionary, the fetch raises [TypeError]; only a missing key is taken
    as the end of the pages. *)
Theorem meta_not_a_mapping_raises self (d : dict json) :
  links (next_response self) = [] ->
  body (next_response self) = JDict d ->
  (exists m, Py.get "meta" d = Some m /\ Py.is_dict m = false) \/
  (exists md p,
      Py.get "meta" d = Some (JDict md) /\
      Py.get "pagination" md = Some p /\ Py.is_dict p = false) ->
  _get_next_page self = Raise TypeError (after_request self) /\
  _grow self = Raise TypeError (after_request self).
Proof.
  intros Hlinks Hbody Hmeta.
  apply get_next_page_cursor_error.
  unfold cursor_of, next_cursor, next_link.
  rewrite Hlinks, Hbody. simpl Py.truthy. cbv iota.
  unfold meta_pagination_next. simpl Py.subscript.
  destruct Hmeta as [(m & Hm & Hnd) | (md & p & Hm & Hp & Hnd)].
  - rewrite (contains_get _ _ _ Hm), Hm. simpl.
    rewrite (subscript_not_dict _ _ Hnd). reflexivity.
  - rewrite (contains_get _ _ _ Hm), Hm. simpl. rewrite Hp. simpl.
    rewrite (subscript_not_dict _ _ Hnd). reflexivity.
Qed.

(** C6 as the code has it: when the response has no links and the body is
    a dictionary with a [meta] property under which [pagination] or [next]
    is missing, cursor extraction raises nothing and the cursor is absent;
    the fetch then returns or raises as the construction of the page's
    content does, in a state whose cursor is absent. *)
Theorem missing_meta_path_ends_pagination self (d : dict json) :
  links (next_response self) = [] ->
  body (next_response self) = JDict d ->
  Py.contains "meta" d = true ->
  meta_pagination_next (body (next_response self)) = Throw KeyError ->
  cursor_of self (next_response self) = Return None /\
  _get_next_page self =
    match content_of self (next_response self) with
    | Return content => Ok content (after_cursor (after_request self) None)
    | Throw e => Raise e (after_cursor (after_request self) None)
    end /\
  _next_url (after_cursor (after_request self) None) = None.
Proof.
  intros Hlinks Hbody Hmeta Hpath.
  assert (Hcur : cursor_of self (next_response self) = Return None).
  { unfold cursor_of, next_cursor, next_link.
    rewrite Hlinks. simpl Py.truthy. cbv iota.
    rewrite Hpath. rewrite Hbody, Hmeta. reflexivity. }
  split; [exact Hcur|]. split; [|reflexivity].
  apply get_next_page_cursor_ok. exact Hcur.
Qed.

(** C2 as the code has it: with [meta.pagination.next] set to a URL, the
    cursor comes from it when the response has no links at all; when the
    response has links, only they are read, and links without a [next]
    relation leave the cursor absent. *)
Theorem meta_fallback_only_without_links self (r : Response) (url : string) :
  meta_pagination_next (body r) = Return (JStr url) ->
  (links r = [] ->
   next_link r = Return (Some [("url", JStr url); ("rel", JStr "next")]) /\
   cursor_of self r =
     match Re.search (base_url (_requester self))
             (new_quizzes_url (_requester self)) url with
     | Some locator => Return (Some locator)
     | None => Throw AttributeError
     end) /\
  (links r <> [] ->
   Py.get "next" (links r) = None ->
   next_link r = Return None /\ cursor_of self r = Return None).
Proof.
  intros Hpath. split.
  - intros Hlinks.
    assert (Hlink : next_link r
              = Return (Some [("url", JStr url); ("rel", JStr "next")])).
    { unfold next_link. rewrite Hlinks. simpl Py.truthy. cbv iota.
      rewrite Hpath.
      destruct (body r) as [| | | | |l|d]; try discriminate Hpath.
      unfold meta_pagination_next in Hpath. simpl in Hpath.
      unfold Py.contains.
      destruct (Py.get "meta" d); [reflexivity | discriminate Hpath]. }
    split; [exact Hlink|].
    unfold cursor_of, next_cursor. rewrite Hlink. reflexivity.
  - intros Hlinks Hnext.
    assert (Hlink : next_link r = Return None).
    { unfold next_link. destruct (links r) as [|kv l]; [congruence|].
      simpl Py.truthy. cbv iota. rewrite Hnext. reflexivity. }
    split; [exact Hlink|].
    unfold cursor_of, next_cursor. rewrite Hlink. reflexivity.
Qed.

(** *** The search for the base URLs *)

Lemma strip_prefix_some (p s rest : string) :
  Re.strip_prefix p s = Some rest -> s = (p ++ rest)%string.
Proof.
  revert s. induction p as [|a p IH]; intros s H.
  - destruct s; simpl in H; inversion H; reflexivity.
  - destruct s as [|b s]; simpl in H; [discriminate|].
    destruct (Ascii.eqb a b) eqn:Hab; [|discriminate].
    apply Ascii.eqb_eq in Hab. subst b.
    simpl. f_equal. apply IH. exact H.
Qed.

Lemma strip_prefix_append (p rest : string) :
  Re.strip_prefix p (p ++ rest)%string = Some rest.
Proof.
  induction p as [|a p IH]; simpl.
  - destruct rest; reflexivity.
  - rewrite Ascii.eqb_refl. exact IH.
Qed.

Lemma match_here_some (b q s g : string) :
  Re.match_here b q s = Some g -> Re.occurs_in b s \/ Re.occurs_in q s.
Proof.
  unfold Re.match_here.
  destruct (Re.strip_prefix b s) as [rest|] eqn:Hb.
  - intros _. left. exists EmptyString, rest. simpl.
    apply strip_prefix_some. exact Hb.
  - destruct (Re.strip_prefix q s) as [rest|] eqn:Hq; [|discriminate].
    intros _. right. exists EmptyString, rest. simpl.
    apply strip_prefix_some. exact Hq.
Qed.

Lemma occurs_in_tail (p s : string) (c : ascii) :
  Re.occurs_in p s -> Re.occurs_in p (String c s).
Proof.
  intros (before & after & ->). exists (String c before), after. reflexivity.
Qed.

(** A successful search has found one of the two base URLs in the text. *)
Lemma search_some_occurs (b q s g : string) :
  Re.search b q s = Some g -> Re.occurs_in b s \/ Re.occurs_in q s.
Proof.
  induction s as [|c s IH]; simpl.
  - destruct (Re.match_here b q EmptyString) eqn:Hm; [|discriminate].
    intros _. eapply match_here_some. exact Hm.
  - destruct (Re.match_here b q (String c s)) eqn:Hm.
    + intros _. eapply match_here_some. exact Hm.
    + intros H. destruct (IH H) as [Ho|Ho]; [left|right];
        apply occurs_in_tail; exact Ho.
Qed.

(** And the search succeeds wherever one of them occurs. *)
Lemma occurs_search_some (b q s : string) :
  Re.occurs_in b s \/ Re.occurs_in q s -> exists g, Re.search b q s = Some g.
Proof.
  assert (Hhere : forall p rest,
             (p = b \/ p = q) ->
             exists g, Re.match_here b q (p ++ rest)%string = Some g).
  { intros p rest [->| ->]; unfold Re.match_here.
    - rewrite strip_prefix_append. eauto.
    - destruct (Re.strip_prefix b (q ++ rest)%string); [eauto|].
      rewrite strip_prefix_append. eauto. }
  assert (Hgen : forall p, (p = b \/ p = q) -> forall before after,
             exists g, Re.search b q (before ++ p ++ after)%string = Some g).
  { intros p Hp before after. induction before as [|c before IH].
    - simpl String.append.
      destruct (Hhere p after Hp) as [g Hg].
      exists g. destruct (p ++ after)%string; simpl; rewrite Hg; reflexivity.
    - simpl.
      destruct (Re.match_here b q (String c (before ++ p ++ after)%string));
        [eauto | exact IH]. }
  intros [(before & after & ->)|(before & after & ->)].
  - apply Hgen. left; reflexivity.
  - apply Hgen. right; reflexivity.
Qed.

(** C5 as the code has it: the two base URLs are searched for anywhere in
    the next-page URL.  When neither occurs in it, the fetch raises
    [AttributeError], with the cursor left absent and nothing appended;
    when one occurs, at the start or further on, a cursor is extracted. *)
Theorem unmatched_next_url_fails self (link : dict json) (url : string) :
  next_link (next_response self) = Return (Some link) ->
  Py.get "url" link = Some (JStr url) ->
  (~ Re.occurs_in (base_url (_requester self)) url ->
   ~ Re.occurs_in (new_quizzes_url (_requester self)) url ->
   _get_next_page self = Raise AttributeError (after_request self) /\
   _grow self = Raise AttributeError (after_request self) /\
   _next_url (after_request self) = None /\
   _elements (after_request self) = _elements self) /\
  (Re.occurs_in (base_url (_requester self)) url \/
   Re.occurs_in (new_quizzes_url (_requester self)) url ->
   exists locator,
     cursor_of self (next_response self) = Return (Some locator)).
Proof.
  intros Hlink Hurl.
  assert (Hcur : cursor_of self (next_response self) =
            match Re.search (base_url (_requester self))
                    (new_quizzes_url (_requester self)) url with
            | Some g => Return (Some g)
            | None => Throw AttributeError
            end).
  { unfold cursor_of, next_cursor. rewrite Hlink. simpl.
    destruct link as [|kv link]; [discriminate Hurl|].
    simpl Py.truthy. cbv iota. rewrite Hurl. reflexivity. }
  split.
  - intros Hb Hq.
    destruct (Re.search (base_url (_requester self))
                (new_quizzes_url (_requester self)) url) as [g|] eqn:Hs.
    + apply search_some_occurs in Hs. tauto.
    + destruct (get_next_page_cursor_error self _ Hcur) as [H1 H2].
      repeat split; assumption.
  - intros Hocc. apply occurs_search_some in Hocc.
    destruct Hocc as [g Hg]. rewrite Hg in Hcur. eauto.
Qed.

(** *** The state invariant *)

Lemma grows_refl self : grows self self.
Proof.
  split; [|tauto]. exists []. symmetry. apply app_nil_r.
Qed.

Lemma grows_trans self1 self2 self3 :
  grows self1 self2 -> grows self2 self3 -> grows self1 self3.
Proof.
  intros [[l1 H1] N1] [[l2 H2] N2]. split; [|tauto].
  exists (l1 ++ l2). rewrite H2, H1. symmetry. apply app_assoc.
Qed.

Lemma preserved_trans {A : Type} self1 self2 (o : outcome T RS A) :
  grows self1 self2 -> preserved self2 o -> preserved self1 o.
Proof.
  intros H12. destruct o; simpl; try tauto; apply grows_trans; exact H12.
Qed.

Lemma has_next_cursor self : _has_next self = true -> _next_url self <> None.
Proof. unfold _has_next. destruct (_next_url self); congruence. Qed.

(** A fetch resets the cursor before anything can fail, which keeps the
    invariant because a fetch starts with a cursor. *)
Lemma get_next_page_preserved self :
  _has_next self = true -> preserved self (_get_next_page self).
Proof.
  intros Hnext. apply has_next_cursor in Hnext.
  assert (Hsame : forall s, _elements s = _elements self -> grows self s).
  { intros s Hs. split; [|tauto]. exists []. rewrite Hs.
    symmetry. apply app_nil_r. }
  unfold _get_next_page.
  destruct (cursor_of self (next_response self)); simpl;
    [|apply Hsame; reflexivity].
  destruct (content_of self (next_response self)); simpl;
    apply Hsame; reflexivity.
Qed.

Lemma grow_preserved self :
  _has_next self = true -> preserved self (_grow self).
Proof.
  intros Hnext. pose proof (get_next_page_preserved self Hnext) as Hpage.
  apply has_next_cursor in Hnext.
  unfold _grow. destruct (_get_next_page self) as [new s|e s|]; simpl in *;
    try exact Hpage.
  destruct Hpage as [[l Hl] _]. split; [|tauto].
  exists (l ++ new). simpl. rewrite Hl. symmetry. apply app_assoc.
Qed.

Lemma get_up_to_index_preserved fuel self index :
  preserved self (_get_up_to_index fuel self index).
Proof.
  revert self. induction fuel as [|fuel IH]; intros self; simpl.
  - destruct (_ && _); simpl; [exact I | apply grows_refl].
  - destruct (Z.of_nat (List.length (_elements self)) <=? index); simpl;
      [|apply grows_refl].
    destruct (_has_next self) eqn:Hnext; [|apply grows_refl].
    pose proof (grow_preserved self Hnext) as Hgrow.
    destruct (_grow self) as [new s|e s|]; simpl in *; try exact Hgrow.
    eapply preserved_trans; [exact Hgrow | apply IH].
Qed.

Lemma getitem_int_preserved fuel self index :
  preserved self (getitem_int fuel self index).
Proof.
  unfold getitem_int. destruct (index <? 0); [apply grows_refl|].
  pose proof (get_up_to_index_preserved fuel self index) as Hup.
  destruct (_get_up_to_index fuel self index) as [u s|e s|]; simpl in *;
    try exact Hup.
  destruct (nth_error (_elements s) (Z.to_nat index)); exact Hup.
Qed.

Lemma getitem_preserved fuel self (index : index_arg) :
  preserved self (__getitem__ fuel self index).
Proof.
  destruct index as [v|start stop step]; simpl.
  - destruct (as_int v) as [i|]; [|apply grows_refl].
    pose proof (getitem_int_preserved fuel self i) as Hget.
    destruct (getitem_int fuel self i); exact Hget.
  - destruct (_Slice__init__ start stop step); apply grows_refl.
Qed.

Lemma fetch_loop_preserved fuel self :
  preserved self (fetch_loop fuel self).
Proof.
  revert self. induction fuel as [|fuel IH]; intros self; simpl;
    destruct (_has_next self) eqn:Hnext; simpl;
    try exact I; try apply grows_refl.
  pose proof (grow_preserved self Hnext) as Hgrow.
  destruct (_grow self) as [[|x new] s|e s|]; simpl in *; try exact Hgrow.
  eapply preserved_trans; [exact Hgrow | apply IH].
Qed.

Lemma iter_preserved fuel (point : iter_point T) self :
  preserved self (__iter__ fuel point self).
Proof.
  destruct point as [position|[|x rest]|]; simpl;
    try apply grows_refl; try apply fetch_loop_preserved.
  destruct (nth_error (_elements self) position);
    [apply grows_refl | apply fetch_loop_preserved].
Qed.

Lemma slice_iter_preserved fuel (sl : _Slice) (point : option Z) self :
  preserved self (_Slice__iter__ fuel sl point self).
Proof.
  destruct point as [index|]; simpl; [|apply grows_refl].
  destruct (_finished sl index); [apply grows_refl|].
  destruct (_is_larger_than self index); [|apply grows_refl].
  pose proof (getitem_int_preserved fuel self index) as Hget.
  destruct (getitem_int fuel self index) as [x s|e s|]; simpl in *;
    try exact Hget.
  destruct e; exact Hget.
Qed.

(** Draining a generator keeps what each [next()] keeps. *)
Lemma drain_preserved {P : Type}
    (next : P -> PaginatedList T RS -> outcome T RS (option T * P)) :
  (forall point self, preserved self (next point self)) ->
  forall fuel point self, preserved self (drain next fuel point self).
Proof.
  intros Hnext. induction fuel as [|fuel IH]; intros point self; simpl;
    [exact I|].
  pose proof (Hnext point self) as Hstep.
  destruct (next point self) as [[[x|] point'] s|e s|]; simpl in *;
    try exact Hstep.
  pose proof (IH point' s) as Hrest.
  destruct (drain next fuel point' s) as [l s'|e s'|]; simpl in *;
    try exact I; eapply grows_trans; eassumption.
Qed.

(** C4: index access, building a slice, each step of the two generators
    and a whole pass of either keep the state invariant, whether they
    return or raise: the elements held before are a prefix of those held
    after, and a cursor that was absent is still absent. *)
Theorem operations_preserve_invariant :
  (forall fuel self index, preserved self (__getitem__ fuel self index)) /\
  (forall fuel point self, preserved self (__iter__ fuel point self)) /\
  (forall fuel sl point self,
      preserved self (_Slice__iter__ fuel sl point self)) /\
  (forall fuel self, preserved self (iterate fuel self)) /\
  (forall fuel sl self, preserved self (iterate_slice fuel sl self)).
Proof.
  repeat split.
  - apply getitem_preserved.
  - apply iter_preserved.
  - apply slice_iter_preserved.
  - intros fuel self. apply drain_preserved. apply iter_preserved.
  - intros fuel sl self. apply drain_preserved. apply slice_iter_preserved.
Qed.

(** *** Full iteration over a finite source *)

Lemma fetch_loop_exhausted fuel self :
  _has_next self = false -> fetch_loop fuel self = Ok (None, Returned) self.
Proof. intros H. destruct fuel; simpl; rewrite H; reflexivity. Qed.

Lemma drain_at_loop fuel n self :
  drain (__iter__ fuel) (S n) (InPage []) self = resume_pass fuel fuel n self.
Proof. reflexivity. Qed.

(** The rest of a page is yielded element by element. *)
Lemma drain_page fuel (rest : list T) n self :
  drain (__iter__ fuel) (List.length rest + n) (InPage rest) self =
    match drain (__iter__ fuel) n (InPage []) self with
    | Ok yielded self' => Ok (rest ++ yielded) self'
    | other => other
    end.
Proof.
  induction rest as [|x rest IH]; simpl.
  - destruct (drain (__iter__ fuel) n (InPage []) self); reflexivity.
  - rewrite IH.
    destruct (drain (__iter__ fuel) n (InPage []) self); reflexivity.
Qed.

(** One turn of the loop: the page just fetched is yielded, then the pass
    goes on from the loop, on the loop's own fuel if the page was empty. *)
Lemma resume_pass_grow loop_fuel fuel n self (page : list T) self1 :
  _has_next self = true ->
  _grow self = Ok page self1 ->
  resume_pass (S loop_fuel) fuel (List.length page + n) self =
    match resume_pass (match page with [] => loop_fuel | _ => fuel end)
            fuel n self1 with
    | Ok yielded self' => Ok (page ++ yielded) self'
    | other => other
    end.
Proof.
  intros Hnext Hgrow. unfold resume_pass at 1. simpl fetch_loop.
  rewrite Hnext, Hgrow. destruct page as [|x rest].
  - simpl. fold (resume_pass loop_fuel fuel n self1).
    destruct (resume_pass loop_fuel fuel n self1); reflexivity.
  - replace (List.length (x :: rest) + n)%nat
      with (List.length rest + S n)%nat by (simpl; lia).
    rewrite drain_page, drain_at_loop.
    destruct (resume_pass fuel fuel n self1); reflexivity.
Qed.

Lemma resume_pass_exhausted loop_fuel fuel n self :
  _has_next self = false -> resume_pass loop_fuel fuel n self = Ok [] self.
Proof.
  intros H. unfold resume_pass. rewrite fetch_loop_exhausted by exact H.
  reflexivity.
Qed.

(** What [_grow] does with an answer of the source. *)
Lemma grow_answer self (r : Response) (url : option string) (page : list T) :
  snd (request (_requester self) (session (_requester self))
         (next_request self)) = r ->
  cursor_of self r = Return url ->
  content_of self r = Return page ->
  _grow self = Ok page (extend (after_cursor (after_request self) url) page).
Proof.
  intros Hr Hcur Hcont. unfold _grow, _get_next_page, next_response.
  simpl. rewrite Hr, Hcur, Hcont. reflexivity.
Qed.

(** The pass through a finite source, from inside the loop. *)
Lemma resume_pass_source self0 (responses : list Response)
    (pages : list (list T)) :
  finite_source self0 responses pages ->
  forall self loop_fuel fuel n,
    (forall r, cursor_of self r = cursor_of self0 r) ->
    (forall r, content_of self r = content_of self0 r) ->
    answers (_requester self) responses ->
    _has_next self = true ->
    (List.length responses <= loop_fuel)%nat ->
    (List.length responses <= fuel)%nat ->
    (List.length (List.concat pages) <= n)%nat ->
    exists self',
      resume_pass loop_fuel fuel n self = Ok (List.concat pages) self' /\
      _elements self' = _elements self ++ List.concat pages /\
      _next_url self' = None /\
      List.length (requests self')
      = (List.length (requests self) + List.length responses)%nat.
Proof.
  induction 1
    as [r page Hcur Hcont | r url page rest pages Hcur Hcont Hsrc IH];
    intros self loop_fuel fuel n Hc Hk Hans Hnext Hloop Hfuel Hn;
    destruct (Hans (next_request self)) as [Hr Hans'];
    rewrite <- Hc in Hcur; rewrite <- Hk in Hcont;
    pose proof (grow_answer self r _ page Hr Hcur Hcont) as Hgrow;
    destruct loop_fuel as [|loop_fuel]; simpl in Hloop; try lia;
    simpl List.concat in *; rewrite ?app_nil_r in *;
    rewrite length_app in Hn || idtac.
  - replace n with (List.length page + (n - List.length page))%nat by lia.
    rewrite (resume_pass_grow _ _ _ _ _ _ Hnext Hgrow).
    rewrite resume_pass_exhausted by reflexivity.
    rewrite app_nil_r. eexists. split; [reflexivity|].
    simpl. rewrite length_app. simpl. repeat split; lia.
  - replace n with (List.length page + (n - List.length page))%nat by lia.
    rewrite (resume_pass_grow _ _ _ _ _ _ Hnext Hgrow).
    edestruct (IH (extend (after_cursor (after_request self) (Some url)) page)
                 (match page with [] => loop_fuel | _ :: _ => fuel end)
                 fuel (n - List.length page)%nat)
      as (self' & Hrun & Hel & Hurl & Hreq).
    + intros r0. rewrite <- Hc. reflexivity.
    + intros r0. rewrite <- Hk. reflexivity.
    + exact Hans'.
    + reflexivity.
    + destruct page; simpl in *; lia.
    + simpl in Hfuel. lia.
    + lia.
    + rewrite Hrun. exists self'. split; [reflexivity|].
      split; [|split; [exact Hurl|]].
      * rewrite Hel. simpl. symmetry. apply app_assoc.
      * rewrite Hreq. simpl. rewrite length_app. simpl. lia.
Qed.

Lemma skipn_nth_error (l : list T) (k : nat) (x : T) :
  nth_error l k = Some x -> skipn k l = x :: skipn (S k) l.
Proof.
  revert k. induction l as [|y l IH]; intros [|k]; simpl; try discriminate.
  - intros H. inversion H. reflexivity.
  - intros H. rewrite (IH k H). reflexivity.
Qed.

(** A pass replays the store from its position, then goes into the loop;
    what was fetched before the pass is not fetched again. *)
Lemma replay_then_loop fuel self m :
  forall k position,
    List.length (_elements self) = (position + k)%nat ->
    drain (__iter__ fuel) (k + S m) (Replaying position) self =
      match resume_pass fuel fuel m self with
      | Ok yielded self' =>
          Ok (skipn position (_elements self) ++ yielded) self'
      | other => other
      end.
Proof.
  induction k as [|k IH]; intros position Hlen.
  - assert (Hnone : nth_error (_elements self) position = None)
      by (apply nth_error_None; lia).
    rewrite skipn_all2 by lia.
    change (drain (__iter__ fuel) (0 + S m) (Replaying position) self)
      with (match __iter__ fuel (Replaying position) self with
            | Ok (Some element, point') self' =>
                match drain (__iter__ fuel) m point' self' with
                | Ok yielded self'' => Ok (element :: yielded) self''
                | other => other
                end
            | Ok (None, _) self' => Ok [] self'
            | Raise e self' => Raise e self'
            | OutOfFuel => OutOfFuel
            end).
    simpl __iter__. rewrite Hnone. fold (resume_pass fuel fuel m self).
    destruct (resume_pass fuel fuel m self); reflexivity.
  - destruct (nth_error (_elements self) position) as [x|] eqn:Hnth;
      [|apply nth_error_None in Hnth; lia].
    simpl. rewrite Hnth. rewrite IH by lia.
    rewrite (skipn_nth_error _ _ _ Hnth).
    destruct (resume_pass fuel fuel m self); reflexivity.
Qed.

Lemma iterate_resume fuel self :
  (List.length (_elements self) < fuel)%nat ->
  iterate fuel self =
    match resume_pass fuel fuel (fuel - S (List.length (_elements self))) self
    with
    | Ok yielded self' => Ok (_elements self ++ yielded) self'
    | other => other
    end.
Proof.
  intros Hfuel. unfold iterate.
  replace fuel
    with (List.length (_elements self)
          + S (fuel - S (List.length (_elements self))))%nat at 2 by lia.
  rewrite replay_then_loop by reflexivity. reflexivity.
Qed.

(** A pass over an exhausted collection replays the store and stops. *)
Lemma repeat_iterate_exhausted fuel self :
  _has_next self = false ->
  (List.length (_elements self) < fuel)%nat ->
  forall passes, repeat_iterate fuel passes self = Ok (_elements self) self.
Proof.
  intros Hnext Hfuel.
  assert (Hpass : iterate fuel self = Ok (_elements self) self).
  { rewrite iterate_resume by exact Hfuel.
    rewrite resume_pass_exhausted by exact Hnext.
    rewrite app_nil_r. reflexivity. }
  induction passes as [|passes IH]; simpl; rewrite Hpass;
    [reflexivity | exact IH].
Qed.

(** A pass over a collection that holds the first pages of a finite source
    and has the rest still to fetch: it yields the stored elements, then
    the remaining pages, and requests only those. *)
Lemma iterate_rest_of_source fuel self (responses : list Response)
    (pages : list (list T)) :
  finite_source self responses pages ->
  answers (_requester self) responses ->
  _has_next self = true ->
  (List.length (_elements self) + List.length (List.concat pages)
   + List.length responses < fuel)%nat ->
  exists self',
    iterate fuel self = Ok (_elements self ++ List.concat pages) self' /\
    _elements self' = _elements self ++ List.concat pages /\
    _has_next self' = false /\
    List.length (requests self')
    = (List.length (requests self) + List.length responses)%nat.
Proof.
  intros Hsrc Hans Hnext Hfuel.
  destruct (resume_pass_source self responses pages Hsrc self fuel fuel
              (fuel - S (List.length (_elements self))))
    as (self' & Hrun & Hel & Hurl & Hreq);
    try reflexivity; try assumption; try lia.
  exists self'. rewrite iterate_resume by lia. rewrite Hrun.
  repeat split; try assumption.
  unfold _has_next. rewrite Hurl. reflexivity.
Qed.

(** C3: over a source of N pages, of which all but the last carry a
    cursor, a full pass of a new collection yields the pages' elements in
    page order, and so does every later pass; after any number of passes
    the collection has issued N requests in all. *)
Theorem iteration_over_finite_source
    (content_class : dict json -> T) (requester : Requester RS)
    (method first_url : string) (extra : option (dict json))
    (root override : option string) (kwargs : dict json)
    (responses : list Response) (pages : list (list T))
    (fuel passes : nat) :
  let self :=
    __init__ content_class requester method first_url extra root override
      kwargs in
  finite_source self responses pages ->
  answers requester responses ->
  (List.length (List.concat pages) + List.length responses < fuel)%nat ->
  exists self',
    repeat_iterate fuel passes self = Ok (List.concat pages) self' /\
    _elements self' = List.concat pages /\
    _has_next self' = false /\
    List.length (requests self') = List.length responses.
Proof.
  intros self Hsrc Hans Hfuel.
  destruct (iterate_rest_of_source fuel self responses pages Hsrc Hans)
    as (self' & Hfirst & Hel & Hnext & Hreq);
    [reflexivity | simpl; lia |].
  simpl in Hfirst, Hel, Hreq.
  exists self'. split; [|repeat split; assumption].
  destruct passes as [|passes]; simpl; rewrite Hfirst; [reflexivity|].
  rewrite repeat_iterate_exhausted; try assumption.
  - rewrite Hel. reflexivity.
  - rewrite Hel. lia.
Qed.

End Properties.

(** ** Further properties of the code *)

Section Further.

Context {T RS : Type}.
Implicit Types (self later : PaginatedList T RS) (fuel : nat).

(** *** Dictionaries *)

Lemma get_set_same {V : Type} (k : string) (v : V) (d : dict V) :
  Py.get k (Py.set k v d) = Some v.
Proof.
  induction d as [|[k' v'] d IH]; simpl.
  - rewrite String.eqb_refl. reflexivity.
  - destruct (String.eqb k k') eqn:Hk; simpl; rewrite Hk;
      [reflexivity | exact IH].
Qed.

Lemma get_set_other {V : Type} (k k' : string) (v : V) (d : dict V) :
  k' <> k -> Py.get k' (Py.set k v d) = Py.get k' d.
Proof.
  intros Hne. induction d as [|[k0 v0] d IH]; simpl.
  - apply String.eqb_neq in Hne. rewrite Hne. reflexivity.
  - destruct (String.eqb k k0) eqn:Hk; simpl.
    + apply String.eqb_eq in Hk. subst k0.
      apply String.eqb_neq in Hne. rewrite Hne. reflexivity.
    + destruct (String.eqb k' k0); [reflexivity | exact IH].
Qed.

Lemma get_absent {V : Type} (k : string) (d : dict V) :
  ~ In k (map fst d) -> Py.get k d = None.
Proof.
  induction d as [|[k' v'] d IH]; simpl; intros Hin; [reflexivity|].
  destruct (String.eqb k k') eqn:Hk.
  - apply String.eqb_eq in Hk. subst k'. tauto.
  - apply IH. tauto.
Qed.

Lemma get_update_absent {V : Type} (k : string) (d other : dict V) :
  Py.get k other = None -> Py.get k (Py.update d other) = Py.get k d.
Proof.
  unfold Py.update. revert d.
  induction other as [|[k' v'] other IH]; intros d Hget; simpl;
    [reflexivity|].
  simpl in Hget. destruct (String.eqb k k') eqn:Hk; [discriminate|].
  rewrite IH by exact Hget. apply get_set_other.
  apply String.eqb_neq. exact Hk.
Qed.

(** X1: [update] on a raw item: a key of the extra attributes gets the
    extra value, whatever the item held, and every other key keeps what the
    item held.  The extra attributes are a dictionary, so no key twice. *)
Theorem update_overrides (d extra : dict json) :
  NoDup (map fst extra) ->
  forall k,
    Py.get k (Py.update d extra)
    = match Py.get k extra with
      | Some v => Some v
      | None => Py.get k d
      end.
Proof.
  intros Hnodup k.
  destruct (Py.get k extra) as [v|] eqn:Hget;
    [|apply get_update_absent; exact Hget].
  unfold Py.update. revert d.
  induction extra as [|[k' v'] extra IH]; intros d; [discriminate|].
  simpl in *. inversion Hnodup as [|? ? Hnotin Hrest]; subst.
  destruct (String.eqb k k') eqn:Hk.
  - apply String.eqb_eq in Hk. subst k'. inversion Hget; subst v'.
    change (Py.get k (Py.update (Py.set k v d) extra) = Some v).
    rewrite get_update_absent by (apply get_absent; exact Hnotin).
    apply get_set_same.
  - apply IH; assumption.
Qed.

(** X2: the parameters of a new collection hold the caller's [per_page],
    or 100 when the caller gave none, and the caller's other parameters
    unchanged; they are the parameters of the first request, which goes to
    [first_url]. *)
Theorem init_parameters
    (content_class : dict json -> T) (requester : Requester RS)
    (method first_url : string) (extra : option (dict json))
    (root override : option string) (kwargs : dict json) :
  let self :=
    __init__ content_class requester method first_url extra root override
      kwargs in
  Py.get "per_page" (_first_params self)
  = Some (match Py.get "per_page" kwargs with
          | Some v => v
          | None => JInt 100
          end) /\
  (forall k, k <> "per_page" ->
             Py.get k (_first_params self) = Py.get k kwargs) /\
  next_request self
  = mkRequest method (Some first_url) override (_first_params self).
Proof.
  simpl. split; [apply get_set_same|]. split; [|reflexivity].
  intros k Hk. apply get_set_other. exact Hk.
Qed.

(** *** The content of a page *)

(** The loop over the raw items as a map over the dictionaries. *)
Lemma build_content_map (content_class : dict json -> T)
    (extra : dict json) (items : list json) :
  build_content content_class extra items
  = if forallb usable_item items
    then Return (map (fun d => content_class (Py.update d extra))
                   (raw_dicts items))
    else Throw AttributeError.
Proof.
  induction items as [|v items IH]; [reflexivity|].
  destruct v; simpl; try reflexivity.
  - exact IH.
  - rewrite IH. destruct (forallb usable_item items); reflexivity.
Qed.

(** X3: when every raw item of a page is [None] or a dictionary, the
    content is one element per dictionary, in the order of the page, built
    from the dictionary updated with the extra attributes; [None] entries
    are skipped.  Any other kind of item makes the loop raise
    [AttributeError]. *)
Theorem build_content_items (content_class : dict json -> T)
    (extra : dict json) (items : list json) :
  build_content content_class extra items
  = if forallb usable_item items
    then Return (map (fun d => content_class (Py.update d extra))
                   (raw_dicts items))
    else Throw AttributeError.
Proof. apply build_content_map. Qed.

(** *** The base URLs in a next-page URL *)

Lemma dot_star_one_line (s : string) :
  one_line s = true -> Re.dot_star s = s.
Proof.
  induction s as [|c s IH]; simpl; [reflexivity|].
  destruct (Ascii.eqb c Re.newline); simpl; [discriminate|].
  intros H. rewrite IH by exact H. reflexivity.
Qed.

(** What the group leaves behind starts with a newline, if anything. *)
Lemma dot_star_split (s : string) :
  one_line (Re.dot_star s) = true /\
  exists rest,
    s = (Re.dot_star s ++ rest)%string /\
    (rest = EmptyString \/ exists t, rest = String Re.newline t).
Proof.
  induction s as [|c s [IH1 (rest & IH2 & IH3)]]; simpl.
  - split; [reflexivity|]. exists EmptyString. split; [reflexivity|].
    left; reflexivity.
  - destruct (Ascii.eqb c Re.newline) eqn:Hc; simpl.
    + split; [reflexivity|]. apply Ascii.eqb_eq in Hc. subst c.
      exists (String Re.newline s). split; [reflexivity|].
      right. exists s. reflexivity.
    + rewrite Hc, IH1. split; [reflexivity|].
      exists rest. split; [f_equal; exact IH2 | exact IH3].
Qed.

Lemma get_header_link (k : string) (l : dict string) :
  Py.get k (header_link l) = option_map JStr (Py.get k l).
Proof.
  induction l as [|[k' v'] l IH]; simpl; [reflexivity|].
  destruct (String.eqb k k'); [reflexivity | exact IH].
Qed.

(** X4: a [next] link whose URL is the primary base URL followed by a
    one-line remainder gives that remainder as the cursor; so does one on
    the new-quizzes base URL, unless the primary base URL is a prefix of
    that URL too. *)
Theorem cursor_strips_base_url self (r : Response) (l : dict string)
    (rest : string) :
  Py.get "next" (links r) = Some l ->
  one_line rest = true ->
  (Py.get "url" l = Some (base_url (_requester self) ++ rest)%string ->
   cursor_of self r = Return (Some rest)) /\
  (Py.get "url" l = Some (new_quizzes_url (_requester self) ++ rest)%string ->
   Re.strip_prefix (base_url (_requester self))
     (new_quizzes_url (_requester self) ++ rest)%string = None ->
   cursor_of self r = Return (Some rest)).
Proof.
  intros Hnext Hline.
  assert (Hcur : forall url,
             Py.get "url" l = Some url ->
             cursor_of self r =
               match Re.search (base_url (_requester self))
                       (new_quizzes_url (_requester self)) url with
               | Some g => Return (Some g)
               | None => Throw AttributeError
               end).
  { intros url Hurl. unfold cursor_of, next_cursor, next_link.
    destruct (links r) as [|kv ls]; [discriminate Hnext|].
    simpl Py.truthy. cbv iota. rewrite Hnext. simpl.
    destruct l as [|kv' l']; [discriminate Hurl|].
    change (header_link (kv' :: l'))
      with ((fst kv', JStr (snd kv')) :: header_link l').
    simpl Py.truthy. cbv iota.
    change ((fst kv', JStr (snd kv')) :: header_link l')
      with (header_link (kv' :: l')).
    rewrite get_header_link, Hurl. reflexivity. }
  assert (Hhere : forall b q s g,
             Re.match_here b q s = Some g -> Re.search b q s = Some g).
  { intros b q s g H. destruct s; simpl; rewrite H; reflexivity. }
  split.
  - intros Hurl. rewrite (Hcur _ Hurl).
    erewrite Hhere; [reflexivity|].
    unfold Re.match_here. rewrite strip_prefix_append.
    rewrite dot_star_one_line by exact Hline. reflexivity.
  - intros Hurl Hnot. rewrite (Hcur _ Hurl).
    erewrite Hhere; [reflexivity|].
    unfold Re.match_here. rewrite Hnot, strip_prefix_append.
    rewrite dot_star_one_line by exact Hline. reflexivity.
Qed.

Lemma match_here_sound (b q s g : string) :
  Re.match_here b q s = Some g ->
  one_line g = true /\
  exists p rest,
    (p = b \/ p = q) /\ s = (p ++ g ++ rest)%string /\
    (rest = EmptyString \/ exists t, rest = String Re.newline t).
Proof.
  unfold Re.match_here.
  assert (Hgen : forall p tail,
             Re.strip_prefix p s = Some tail -> (p = b \/ p = q) ->
             one_line (Re.dot_star tail) = true /\
             exists p0 rest,
               (p0 = b \/ p0 = q) /\
               s = (p0 ++ Re.dot_star tail ++ rest)%string /\
               (rest = EmptyString \/ exists t, rest = String Re.newline t)).
  { intros p tail Hp Hpq.
    destruct (dot_star_split tail) as [Hline (rest & Hsplit & Hrest)].
    split; [exact Hline|]. exists p, rest. split; [exact Hpq|].
    split; [|exact Hrest].
    rewrite <- Hsplit. apply strip_prefix_some. exact Hp. }
  destruct (Re.strip_prefix b s) as [tail|] eqn:Hb.
  - intros H. inversion H; subst g. apply (Hgen b tail Hb). left; reflexivity.
  - destruct (Re.strip_prefix q s) as [tail|] eqn:Hq; [|discriminate].
    intros H. inversion H; subst g. apply (Hgen q tail Hq). right; reflexivity.
Qed.

(** X5: a cursor the search extracts is a piece of the URL: the URL is
    some text, one of the two base URLs, the cursor, and then nothing or a
    newline and more text; the cursor itself holds no newline. *)
Theorem search_sound (b q url cursor : string) :
  Re.search b q url = Some cursor ->
  one_line cursor = true /\
  exists before p rest,
    (p = b \/ p = q) /\
    url = (before ++ p ++ cursor ++ rest)%string /\
    (rest = EmptyString \/ exists t, rest = String Re.newline t).
Proof.
  induction url as [|c url IH]; simpl.
  - destruct (Re.match_here b q EmptyString) as [g|] eqn:Hm; [|discriminate].
    intros H. inversion H; subst g.
    destruct (match_here_sound _ _ _ _ Hm) as [Hline (p & rest & Hp & Hs & Hr)].
    split; [exact Hline|]. exists EmptyString, p, rest. auto.
  - destruct (Re.match_here b q (String c url)) as [g|] eqn:Hm.
    + intros H. inversion H; subst g.
      destruct (match_here_sound _ _ _ _ Hm)
        as [Hline (p & rest & Hp & Hs & Hr)].
      split; [exact Hline|]. exists EmptyString, p, rest. auto.
    + intros H. destruct (IH H) as [Hline (before & p & rest & Hp & Hs & Hr)].
      split; [exact Hline|]. exists (String c before), p, rest.
      split; [exact Hp|]. split; [|exact Hr]. simpl. f_equal. exact Hs.
Qed.

(** *** What every operation keeps *)

Section Invariant.

(** A property of the state that a fetch started with a cursor keeps. *)
Variable P : PaginatedList T RS -> Prop.
Hypothesis grow_keeps :
  forall self, P self -> _has_next self = true -> ends_in P (_grow self).

Lemma get_up_to_index_keeps fuel self index :
  P self -> ends_in P (_get_up_to_index fuel self index).
Proof.
  revert self. induction fuel as [|fuel IH]; intros self HP; simpl.
  - destruct (_ && _); simpl; [exact I | exact HP].
  - destruct (Z.of_nat (List.length (_elements self)) <=? index); simpl;
      [|exact HP].
    destruct (_has_next self) eqn:Hnext; [|exact HP].
    pose proof (grow_keeps self HP Hnext) as Hgrow.
    destruct (_grow self) as [new s|e s|]; simpl in *; try exact Hgrow.
    apply IH. exact Hgrow.
Qed.

Lemma getitem_int_keeps fuel self index :
  P self -> ends_in P (getitem_int fuel self index).
Proof.
  intros HP. unfold getitem_int. destruct (index <? 0); [exact HP|].
  pose proof (get_up_to_index_keeps fuel self index HP) as Hup.
  destruct (_get_up_to_index fuel self index) as [u s|e s|]; simpl in *;
    try exact Hup.
  destruct (nth_error (_elements s) (Z.to_nat index)); exact Hup.
Qed.

Lemma getitem_keeps fuel self (index : index_arg) :
  P self -> ends_in P (__getitem__ fuel self index).
Proof.
  intros HP. destruct index as [v|start stop step]; simpl.
  - destruct (as_int v) as [i|]; [|exact HP].
    pose proof (getitem_int_keeps fuel self i HP) as Hget.
    destruct (getitem_int fuel self i); exact Hget.
  - destruct (_Slice__init__ start stop step); exact HP.
Qed.

Lemma fetch_loop_keeps fuel self :
  P self -> ends_in P (fetch_loop fuel self).
Proof.
  revert self. induction fuel as [|fuel IH]; intros self HP; simpl;
    destruct (_has_next self) eqn:Hnext; simpl; try exact I; try exact HP.
  pose proof (grow_keeps self HP Hnext) as Hgrow.
  destruct (_grow self) as [[|x new] s|e s|]; simpl in *; try exact Hgrow.
  apply IH. exact Hgrow.
Qed.

Lemma iter_keeps fuel (point : iter_point T) self :
  P self -> ends_in P (__iter__ fuel point self).
Proof.
  intros HP. destruct point as [position|[|x rest]|]; simpl;
    try exact HP; try (apply fetch_loop_keeps; exact HP).
  destruct (nth_error (_elements self) position);
    [exact HP | apply fetch_loop_keeps; exact HP].
Qed.

Lemma slice_iter_keeps fuel (sl : _Slice) (point : option Z) self :
  P self -> ends_in P (_Slice__iter__ fuel sl point self).
Proof.
  intros HP. destruct point as [index|]; simpl; [|exact HP].
  destruct (_finished sl index); [exact HP|].
  destruct (_is_larger_than self index); [|exact HP].
  pose proof (getitem_int_keeps fuel self index HP) as Hget.
  destruct (getitem_int fuel self index) as [x s|e s|]; simpl in *;
    try exact Hget.
  destruct e; exact Hget.
Qed.

Lemma drain_keeps {Q : Type}
    (next : Q -> PaginatedList T RS -> outcome T RS (option T * Q)) :
  (forall point self, P self -> ends_in P (next point self)) ->
  forall fuel point self, P self -> ends_in P (drain next fuel point self).
Proof.
  intros Hnext. induction fuel as [|fuel IH]; intros point self HP; simpl;
    [exact I|].
  pose proof (Hnext point self HP) as Hstep.
  destruct (next point self) as [[[x|] point'] s|e s|]; simpl in *;
    try exact Hstep.
  pose proof (IH point' s Hstep) as Hrest.
  destruct (drain next fuel point' s); exact Hrest.
Qed.

(** The state changes through [_grow] only, and [_grow] is only called
    with a cursor: what such a call keeps, every operation keeps. *)
Lemma operations_keep :
  (forall fuel self index,
      P self -> ends_in P (__getitem__ fuel self index)) /\
  (forall fuel point self, P self -> ends_in P (__iter__ fuel point self)) /\
  (forall fuel sl point self,
      P self -> ends_in P (_Slice__iter__ fuel sl point self)) /\
  (forall fuel self, P self -> ends_in P (iterate fuel self)) /\
  (forall fuel sl self, P self -> ends_in P (iterate_slice fuel sl self)).
Proof.
  repeat split.
  - apply getitem_keeps.
  - apply iter_keeps.
  - apply slice_iter_keeps.
  - intros fuel self. apply drain_keeps. apply iter_keeps.
  - intros fuel sl self. apply drain_keeps. apply slice_iter_keeps.
Qed.

End Invariant.

Lemma grow_first_request_only self :
  first_request_only self -> _has_next self = true ->
  ends_in first_request_only (_grow self).
Proof.
  intros [Hlog Hnext_params] Hnext.
  assert (Hlog' : forall i req,
             nth_error (requests self ++ [next_request self]) (S i)
             = Some req ->
             req_params req = []).
  { intros i req Hnth.
    destruct (Nat.lt_ge_cases (S i) (List.length (requests self)))
      as [Hlt|Hge].
    - rewrite nth_error_app1 in Hnth by exact Hlt. eapply Hlog. exact Hnth.
    - rewrite nth_error_app2 in Hnth by exact Hge.
      destruct (S i - List.length (requests self))%nat as [|m] eqn:Hm;
        [|destruct m; discriminate Hnth].
      inversion Hnth; subst req. simpl. apply Hnext_params; [|exact Hnext].
      destruct (requests self); [simpl in Hm; lia | discriminate]. }
  unfold _grow, _get_next_page.
  destruct (cursor_of self (next_response self)) as [url|e]; simpl.
  - destruct (content_of self (next_response self)); simpl;
      (split; [exact Hlog' | reflexivity]).
  - split; [exact Hlog' | discriminate].
Qed.

(** X6: only the first request of a collection carries the caller's
    parameters.  A new collection has this property and index access, slice
    construction, each step and each full pass of both generators keep it:
    every logged request but the first has no parameters. *)
Theorem parameters_on_first_request_only :
  (forall (content_class : dict json -> T) (requester : Requester RS)
          (method first_url : string) (extra : option (dict json))
          (root override : option string) (kwargs : dict json),
      first_request_only
        (__init__ content_class requester method first_url extra root
           override kwargs)) /\
  (forall fuel self index,
      first_request_only self ->
      ends_in first_request_only (__getitem__ fuel self index)) /\
  (forall fuel point self,
      first_request_only self ->
      ends_in first_request_only (__iter__ fuel point self)) /\
  (forall fuel sl point self,
      first_request_only self ->
      ends_in first_request_only (_Slice__iter__ fuel sl point self)) /\
  (forall fuel self,
      first_request_only self ->
      ends_in first_request_only (iterate fuel self)) /\
  (forall fuel sl self,
      first_request_only self ->
      ends_in first_request_only (iterate_slice fuel sl self)).
Proof.
  split.
  - intros. split; simpl.
    + intros i req H. destruct i; discriminate H.
    + intros H. contradiction H. reflexivity.
  - apply (operations_keep first_request_only). exact grow_first_request_only.
Qed.

Lemma same_configuration_refl self : same_configuration self self.
Proof.
  unfold same_configuration. repeat split.
  exists []. symmetry. apply app_nil_r.
Qed.

Lemma grow_same_configuration self0 self :
  same_configuration self0 self -> _has_next self = true ->
  ends_in (same_configuration self0) (_grow self).
Proof.
  intros (H1 & H2 & H3 & H4 & H5 & H6 & H7 & H8 & H9 & issued & H10) _.
  assert (Hlog : exists issued',
             requests self ++ [next_request self]
             = requests self0 ++ issued').
  { exists (issued ++ [next_request self]). rewrite H10.
    symmetry. apply app_assoc. }
  unfold _grow, _get_next_page.
  destruct (cursor_of self (next_response self)) as [url|e]; simpl.
  - destruct (content_of self (next_response self)); simpl;
      unfold same_configuration; simpl; repeat split; assumption.
  - unfold same_configuration; simpl; repeat split; assumption.
Qed.

(** X7: no operation changes what [__init__] configured: the constructor
    of elements, the base URLs, the first URL and parameters, the extra
    attributes, the method, the root and the URL override are the same
    after index access, slice construction and each step or full pass of
    the generators, and the request log has only been appended to. *)
Theorem operations_keep_configuration :
  (forall fuel self index,
      ends_in (same_configuration self) (__getitem__ fuel self index)) /\
  (forall fuel point self,
      ends_in (same_configuration self) (__iter__ fuel point self)) /\
  (forall fuel sl point self,
      ends_in (same_configuration self) (_Slice__iter__ fuel sl point self)) /\
  (forall fuel self, ends_in (same_configuration self) (iterate fuel self)) /\
  (forall fuel sl self,
      ends_in (same_configuration self) (iterate_slice fuel sl self)).
Proof.
  repeat split; intros;
    apply (operations_keep (same_configuration self)
             (grow_same_configuration self));
    apply same_configuration_refl.
Qed.

(** *** The exceptions of a fetch *)







Lemma get_up_to_index_ok fuel self index self' :
  _get_up_to_index fuel self index = Ok tt self' ->
  index < Z.of_nat (List.length (_elements self')) \/
  _has_next self' = false.
Proof.
  revert self. induction fuel as [|fuel IH]; intros self; simpl;
    destruct (Z.of_nat (List.length (_elements self)) <=? index) eqn:Hlen;
    destruct (_has_next self) eqn:Hnext; simpl;
    try discriminate;
    try (intros H; inversion H; subst; right; exact Hnext);
    try (intros H; inversion H; subst; left; apply Z.leb_gt; exact Hlen).
  destruct (_grow self) as [new s|e s|]; try discriminate. apply IH.
Qed.





(** *** After a failed fetch *)

Lemma getitem_int_exhausted fuel self (i : Z) :
  _has_next self = false ->
  Z.of_nat (List.length (_elements self)) <= i ->
  getitem_int fuel self i = Raise IndexError self.
Proof.
  intros Hnext Hlen. unfold getitem_int.
  replace (i <? 0) with false by (symmetry; apply Z.ltb_ge; lia).
  assert (Hup : _get_up_to_index fuel self i = Ok tt self)
    by (destruct fuel; simpl; rewrite Hnext, andb_false_r; reflexivity).
  rewrite Hup.
  replace (nth_error (_elements self) (Z.to_nat i)) with (@None T)
    by (symmetry; apply nth_error_None; lia).
  reflexivity.
Qed.

(** X11: when cursor extraction fails, the fetch raises with the cursor
    already reset: from then on the collection passes for exhausted.  Every
    later pass yields the elements stored before the failure and ends
    without an error, and an index past them raises [IndexError]. *)
Theorem failed_cursor_exhausts self (e : exn) :
  cursor_of self (next_response self) = Throw e ->
  let self' := after_request self in
  _grow self = Raise e self' /\
  (forall fuel passes,
      (List.length (_elements self) < fuel)%nat ->
      repeat_iterate fuel passes self' = Ok (_elements self) self') /\
  (forall fuel i,
      Z.of_nat (List.length (_elements self)) <= i ->
      __getitem__ fuel self' (IdxValue (JInt i)) = Raise IndexError self').
Proof.
  intros Hcur self'.
  split; [apply get_next_page_cursor_error; exact Hcur|]. split.
  - intros fuel passes Hfuel.
    apply (repeat_iterate_exhausted fuel self'); [reflexivity | exact Hfuel].
  - intros fuel i Hlen. simpl.
    rewrite (getitem_int_exhausted fuel self' i); [reflexivity | reflexivity |].
    exact Hlen.
Qed.

(** X12: the root.  With a root configured that the decoded body, a
    dictionary, lacks, the fetch raises [ValueError] after the new cursor is
    stored: nothing is appended and the collection has moved on to the next
    page.  With the root present and holding a list of dictionaries and
    [None]s, the page is built from that list alone. *)
Theorem root_unwrapping self (c : ascii) (root : string) (d : dict json)
    (url : option string) :
  _root self = Some (String c root) ->
  body (next_response self) = JDict d ->
  cursor_of self (next_response self) = Return url ->
  let self' := after_cursor (after_request self) url in
  (Py.get (String c root) d = None ->
   _grow self = Raise ValueError self' /\
   _elements self' = _elements self /\ _next_url self' = url) /\
  (forall items,
      Py.get (String c root) d = Some (JList items) ->
      forallb usable_item items = true ->
      let page :=
        map (fun raw => _content_class self
                          (Py.update raw (_extra_attribs self)))
          (raw_dicts items) in
      _grow self = Ok page (extend self' page)).
Proof.
  intros Hroot Hbody Hcur self'. split.
  - intros Hget. split; [|split; reflexivity].
    unfold _grow. rewrite (get_next_page_cursor_ok _ _ Hcur).
    unfold content_of, page_content, unwrap_root.
    rewrite Hroot, Hbody. simpl. rewrite Hget. reflexivity.
  - intros items Hget Husable page.
    unfold _grow. rewrite (get_next_page_cursor_ok _ _ Hcur).
    unfold content_of, page_content, unwrap_root.
    rewrite Hroot, Hbody. simpl. rewrite Hget. simpl.
    rewrite build_content_map, Husable. reflexivity.
Qed.

(** *** Access to a collection over a finite source *)

Lemma finite_source_configuration self self' (responses : list Response)
    (pages : list (list T)) :
  (forall r, cursor_of self' r = cursor_of self r) ->
  (forall r, content_of self' r = content_of self r) ->
  finite_source self responses pages ->
  finite_source self' responses pages.
Proof.
  intros Hc Hk.
  induction 1 as [r page H1 H2 | r url page rest pages H1 H2 _ IH].
  - apply source_last; [rewrite Hc | rewrite Hk]; assumption.
  - eapply source_more; [rewrite Hc | rewrite Hk | exact IH]; eassumption.
Qed.

Lemma backed_exhausted_inv (all : list T) n self :
  backed_by all n self -> _has_next self = false ->
  n = O /\ _elements self = all.
Proof.
  intros [s Hnext Hall | s responses pages Hnext _ _ _] Hno.
  - split; [reflexivity | exact Hall].
  - congruence.
Qed.

Lemma backed_prefix (all : list T) n self :
  backed_by all n self -> exists rest, all = _elements self ++ rest.
Proof.
  intros [s Hnext Hall | s responses pages _ _ _ Hall].
  - exists []. rewrite app_nil_r. symmetry. exact Hall.
  - exists (List.concat pages). symmetry. exact Hall.
Qed.

(** One fetch takes the next response of the source. *)
Lemma grow_backed (all : list T) n self :
  backed_by all (S n) self ->
  _has_next self = true /\
  exists page self',
    _grow self = Ok page self' /\
    backed_by all n self' /\
    List.length (requests self') = S (List.length (requests self)).
Proof.
  intros Hb. inversion Hb as [|s responses pages Hnext Hsrc Hans Hall Hlen];
    subst s. split; [exact Hnext|].
  destruct Hsrc
    as [r page Hcur Hcont | r url page rest pages' Hcur Hcont Hsrc];
    destruct (Hans (next_request self)) as [Hr Hans'];
    pose proof (grow_answer self r _ page Hr Hcur Hcont) as Hgrow;
    simpl in Hlen; injection Hlen as Hlen; subst n;
    eexists; eexists; (split; [exact Hgrow|]).
  - split; [|simpl; rewrite length_app; simpl; lia].
    apply backed_exhausted; [reflexivity|].
    simpl in *. rewrite app_nil_r in Hall. exact Hall.
  - split; [|simpl; rewrite length_app; simpl; lia].
    apply (backed_pending all _ rest pages').
    + reflexivity.
    + eapply finite_source_configuration; [| |exact Hsrc]; reflexivity.
    + exact Hans'.
    + simpl in *. rewrite <- app_assoc. exact Hall.
Qed.

Lemma get_up_to_index_backed (all : list T) (i : Z) :
  forall n fuel self,
    backed_by all n self -> (n <= fuel)%nat ->
    exists self' m,
      _get_up_to_index fuel self i = Ok tt self' /\
      backed_by all m self' /\ (m <= n)%nat /\
      (List.length (requests self') + m
       = List.length (requests self) + n)%nat.
Proof.
  induction n as [|n IH]; intros fuel self Hb Hfuel.
  - exists self, O. split; [|split; [exact Hb | split; lia]].
    inversion Hb as [s Hnext Hall | s responses pages Hnext Hsrc _ _ Hlen].
    + destruct fuel; simpl; rewrite Hnext, andb_false_r; reflexivity.
    + destruct Hsrc; discriminate Hlen.
  - destruct fuel as [|fuel]; [lia|].
    destruct (grow_backed all n self Hb)
      as [Hnext (page & s1 & Hgrow & Hb1 & Hreq1)].
    simpl. rewrite Hnext, andb_true_r.
    destruct (Z.of_nat (List.length (_elements self)) <=? i).
    + rewrite Hgrow.
      destruct (IH fuel s1 Hb1) as (s' & m & Hup & Hb' & Hm & Hreq);
        [lia|].
      exists s', m. repeat split; try assumption; lia.
    + exists self, (S n). repeat split; try assumption; lia.
Qed.

Lemma getitem_int_backed (all : list T) (i : Z) n fuel self :
  backed_by all n self -> (n <= fuel)%nat -> 0 <= i ->
  exists self' m,
    getitem_int fuel self i =
      match nth_error all (Z.to_nat i) with
      | Some element => Ok element self'
      | None => Raise IndexError self'
      end /\
    backed_by all m self' /\ (m <= n)%nat /\
    (nth_error all (Z.to_nat i) = None -> m = O) /\
    (List.length (requests self') + m = List.length (requests self) + n)%nat.
Proof.
  intros Hb Hfuel Hpos.
  destruct (get_up_to_index_backed all i n fuel self Hb Hfuel)
    as (s' & m & Hup & Hb' & Hm & Hreq).
  unfold getitem_int.
  replace (i <? 0) with false by (symmetry; apply Z.ltb_ge; exact Hpos).
  rewrite Hup. destruct (backed_prefix all m s' Hb') as [rest Hall].
  destruct (nth_error (_elements s') (Z.to_nat i)) as [x|] eqn:Hnth.
  - exists s', m.
    assert (Hin : nth_error all (Z.to_nat i) = Some x).
    { rewrite Hall. rewrite nth_error_app1; [exact Hnth|].
      apply nth_error_Some. rewrite Hnth. discriminate. }
    rewrite Hin. repeat split; try assumption. discriminate.
  - apply nth_error_None in Hnth.
    destruct (get_up_to_index_ok _ _ _ _ Hup) as [Hlt|Hnext]; [lia|].
    destruct (backed_exhausted_inv all m s' Hb' Hnext) as [-> Hel].
    exists s', O.
    assert (Hout : nth_error all (Z.to_nat i) = None)
      by (apply nth_error_None; rewrite <- Hel; exact Hnth).
    rewrite Hout. repeat split; try assumption.
Qed.

(** X13: over a collection that stands for the list [all] (what it holds
    followed by the pages of a finite source still to fetch) and with fuel
    for the remaining responses, [collection[i]] for [i >= 0] returns the
    [i]-th element of [all] when there is one, after no more requests than
    responses remain; otherwise it raises [IndexError] once every remaining
    response has been requested, and the collection then holds all of
    [all]. *)
Theorem getitem_over_source (all : list T) n fuel self (i : Z) :
  backed_by all n self -> (n <= fuel)%nat -> 0 <= i ->
  exists self',
    __getitem__ fuel self (IdxValue (JInt i)) =
      match nth_error all (Z.to_nat i) with
      | Some element => Ok (Element element) self'
      | None => Raise IndexError self'
      end /\
    (List.length (requests self')
     <= List.length (requests self) + n)%nat /\
    (nth_error all (Z.to_nat i) = None ->
     _elements self' = all /\ _has_next self' = false /\
     List.length (requests self')
     = (List.length (requests self) + n)%nat).
Proof.
  intros Hb Hfuel Hpos.
  destruct (getitem_int_backed all i n fuel self Hb Hfuel Hpos)
    as (s' & m & Hget & Hb' & Hm & Hnone & Hreq).
  exists s'. simpl. rewrite Hget. split; [|split; [lia|]].
  - destruct (nth_error all (Z.to_nat i)); reflexivity.
  - intros Hout. specialize (Hnone Hout). subst m.
    inversion Hb' as [s Hnext Hall | s responses pages _ Hsrc _ _ Hlen].
    + repeat split; try assumption. lia.
    + destruct Hsrc; discriminate Hlen.
Qed.

(** *** Slices *)

Lemma finished_later (sl : _Slice) (index index' : Z) :
  _finished sl index = true -> index <= index' ->
  _finished sl index' = true.
Proof.
  unfold _finished. destruct (_stop sl) as [stop|]; [|discriminate].
  intros H Hle. apply Z.leb_le in H. apply Z.leb_le. lia.
Qed.

(** With a positive step the walk over a list ends within as many steps
    as the list has elements from [index] on, plus one, and picks every
    [_step]-th element below [_stop]. *)
Lemma list_slice_positive (all : list T) (sl : _Slice) :
  0 < _step sl ->
  forall k index,
    0 <= index ->
    (List.length all - Z.to_nat index < k)%nat ->
    exists ys,
      list_slice k all sl index = Some ys /\
      forall j : nat,
        nth_error ys j =
          if _finished sl (index + Z.of_nat j * _step sl) then None
          else nth_error all (Z.to_nat (index + Z.of_nat j * _step sl)).
Proof.
  intros Hstep. induction k as [|k IH]; intros index Hpos Hk; [lia|].
  simpl. destruct (_finished sl index) eqn:Hfin.
  - exists []. split; [reflexivity|]. intros j.
    rewrite (finished_later sl index) by (assumption || nia).
    destruct j; reflexivity.
  - replace (index <? 0) with false by (symmetry; apply Z.ltb_ge; exact Hpos).
    destruct (nth_error all (Z.to_nat index)) as [x|] eqn:Hnth.
    + assert (Hin : (Z.to_nat index < List.length all)%nat)
        by (apply nth_error_Some; rewrite Hnth; discriminate).
      destruct (IH (index + _step sl)) as (ys & Hys & Hpoint); [lia | lia |].
      exists (x :: ys). rewrite Hys. split; [reflexivity|].
      intros [|j].
      * simpl. rewrite Z.add_0_r, Hfin, Hnth. reflexivity.
      * simpl nth_error. rewrite Hpoint.
        replace (index + _step sl + Z.of_nat j * _step sl)
          with (index + Z.of_nat (S j) * _step sl) by lia.
        reflexivity.
    + exists []. split; [reflexivity|]. intros j.
      apply nth_error_None in Hnth.
      replace (nth_error all (Z.to_nat (index + Z.of_nat j * _step sl)))
        with (@None T) by (symmetry; apply nth_error_None; nia).
      destruct (_finished sl (index + Z.of_nat j * _step sl));
        destruct j; reflexivity.
Qed.

(** The slice generator walks the list the collection stands for. *)
Lemma drain_slice_backed (all : list T) (sl : _Slice) fuel :
  forall k self n index ys,
    backed_by all n self -> (n <= fuel)%nat ->
    list_slice k all sl index = Some ys ->
    exists self' m,
      drain (_Slice__iter__ fuel sl) k (Some index) self = Ok ys self' /\
      backed_by all m self' /\ (m <= n)%nat.
Proof.
  induction k as [|k IH]; intros self n index ys Hb Hfuel Hwalk;
    [discriminate|].
  simpl in Hwalk. simpl.
  destruct (_finished sl index) eqn:Hfin.
  { inversion Hwalk. exists self, n. auto. }
  destruct (index <? 0) eqn:Hneg.
  { inversion Hwalk. exists self, n.
    apply Z.ltb_lt in Hneg. unfold _is_larger_than, getitem_int.
    replace (index <? Z.of_nat (List.length (_elements self))) with true
      by (symmetry; apply Z.ltb_lt; lia).
    replace (index <? 0) with true by (symmetry; apply Z.ltb_lt; exact Hneg).
    simpl. auto. }
  apply Z.ltb_ge in Hneg.
  destruct (_is_larger_than self index) eqn:Hlarger.
  - destruct (getitem_int_backed all index n fuel self Hb Hfuel Hneg)
      as (s' & m & Hget & Hb' & Hm & _ & _).
    rewrite Hget.
    destruct (nth_error all (Z.to_nat index)) as [x|].
    + destruct (list_slice k all sl (index + _step sl)) as [ys'|] eqn:Hrest;
        [|discriminate].
      inversion Hwalk; subst ys.
      destruct (IH s' m (index + _step sl) ys' Hb')
        as (s'' & m' & Hd & Hb'' & Hm');
        [lia | exact Hrest |].
      rewrite Hd. exists s'', m'. repeat split; try assumption. lia.
    + inversion Hwalk. exists s', m. auto.
  - unfold _is_larger_than in Hlarger. apply orb_false_iff in Hlarger.
    destruct Hlarger as [Hlen Hnext]. apply Z.ltb_ge in Hlen.
    destruct (backed_exhausted_inv all n self Hb Hnext) as [_ Hel].
    replace (nth_error all (Z.to_nat index)) with (@None T) in Hwalk
      by (symmetry; apply nth_error_None; rewrite <- Hel; lia).
    inversion Hwalk. exists self, n. auto.
Qed.

Lemma slice_of_contiguous (all ys : list T) (sl : _Slice) (stop : Z) :
  slice_of all sl ys ->
  0 <= _start sl -> _step sl = 1 -> _stop sl = Some stop ->
  ys = firstn (Z.to_nat (stop - _start sl)) (skipn (Z.to_nat (_start sl)) all).
Proof.
  intros Hslice Hstart Hstep Hstop. apply nth_error_ext. intros j.
  rewrite Hslice, nth_error_firstn, nth_error_skipn. cbv zeta.
  unfold _finished. rewrite Hstop, Hstep.
  replace (Z.to_nat (_start sl + Z.of_nat j * 1))
    with (Z.to_nat (_start sl) + j)%nat by lia.
  destruct (stop <=? _start sl + Z.of_nat j * 1) eqn:Hle;
    destruct (Nat.ltb j (Z.to_nat (stop - _start sl))) eqn:Hlt;
    try reflexivity.
  - apply Z.leb_le in Hle. apply Nat.ltb_lt in Hlt. lia.
  - apply Z.leb_gt in Hle. apply Nat.ltb_ge in Hlt. lia.
Qed.

(** X14: over a collection that stands for the list [all], with fuel for
    the remaining responses and the elements of [all], the walk of a slice
    with a start from 0 on and a positive step returns the slice of [all]:
    the elements at [start], [start + step], ... below [stop] and inside
    [all], however the elements are spread over pages.  With step 1 that is
    the segment of [all] from [start] up to [stop]. *)
Theorem slice_over_source (all : list T) n fuel self (sl : _Slice) :
  backed_by all n self -> (n <= fuel)%nat ->
  (List.length all < fuel)%nat ->
  0 <= _start sl -> 0 < _step sl ->
  exists ys self',
    iterate_slice fuel sl self = Ok ys self' /\
    slice_of all sl ys /\
    (forall stop,
        _step sl = 1 -> _stop sl = Some stop ->
        ys = firstn (Z.to_nat (stop - _start sl))
               (skipn (Z.to_nat (_start sl)) all)).
Proof.
  intros Hb Hn Hfuel Hstart Hstep.
  destruct (list_slice_positive all sl Hstep fuel (_start sl) Hstart)
    as (ys & Hwalk & Hpoint); [lia|].
  destruct (drain_slice_backed all sl fuel fuel self n (_start sl) ys Hb Hn
              Hwalk) as (s' & m & Hd & _ & _).
  exists ys, s'. split; [exact Hd|].
  assert (Hslice : slice_of all sl ys) by exact Hpoint.
  split; [exact Hslice|].
  intros stop H1 Hstop. apply slice_of_contiguous; assumption.
Qed.

(** A slice that ends inside the store is walked without a fetch. *)
Lemma drain_slice_stored (sl : _Slice) (stop : Z) fuel self :
  0 < _step sl -> _stop sl = Some stop ->
  stop <= Z.of_nat (List.length (_elements self)) ->
  forall k index ys,
    0 <= index ->
    list_slice k (_elements self) sl index = Some ys ->
    drain (_Slice__iter__ fuel sl) k (Some index) self = Ok ys self.
Proof.
  intros Hstep Hstop Hlen.
  induction k as [|k IH]; intros index ys Hpos Hwalk; [discriminate|].
  simpl in Hwalk. simpl.
  destruct (_finished sl index) eqn:Hfin.
  { inversion Hwalk. reflexivity. }
  replace (index <? 0) with false in Hwalk
    by (symmetry; apply Z.ltb_ge; exact Hpos).
  assert (Hin : index < Z.of_nat (List.length (_elements self))).
  { unfold _finished in Hfin. rewrite Hstop in Hfin.
    apply Z.leb_gt in Hfin. lia. }
  unfold _is_larger_than.
  replace (index <? Z.of_nat (List.length (_elements self))) with true
    by (symmetry; apply Z.ltb_lt; exact Hin).
  simpl orb. cbv iota.
  destruct (nth_error (_elements self) (Z.to_nat index)) as [x|] eqn:Hnth;
    [|apply nth_error_None in Hnth; lia].
  rewrite (getitem_int_stored fuel self index x Hpos Hnth).
  destruct (list_slice k (_elements self) sl (index + _step sl)) as [ys'|]
    eqn:Hrest; [|discriminate].
  inversion Hwalk; subst ys.
  rewrite (IH (index + _step sl) ys') by (lia || exact Hrest).
  reflexivity.
Qed.

(** X15: a slice whose stop lies inside the elements already stored is
    served from the store: with a start from 0 on, a positive step and fuel
    for the stored elements, its walk returns the slice of the stored
    elements in the state it started in, so without a request, even when
    the collection has more pages to fetch. *)
Theorem slice_within_store fuel self (sl : _Slice) (stop : Z) :
  0 <= _start sl -> 0 < _step sl -> _stop sl = Some stop ->
  stop <= Z.of_nat (List.length (_elements self)) ->
  (List.length (_elements self) < fuel)%nat ->
  exists ys,
    iterate_slice fuel sl self = Ok ys self /\
    slice_of (_elements self) sl ys.
Proof.
  intros Hstart Hstep Hstop Hlen Hfuel.
  destruct (list_slice_positive (_elements self) sl Hstep fuel (_start sl)
              Hstart) as (ys & Hwalk & Hpoint); [lia|].
  exists ys. split; [|exact Hpoint].
  apply (drain_slice_stored sl stop fuel self Hstep Hstop Hlen); assumption.
Qed.

(** With a negative step the walk goes down from [index] and ends below
    0, within [index + 2] steps. *)
Lemma list_slice_negative (all : list T) (sl : _Slice) :
  _step sl < 0 ->
  forall k index,
    (Z.to_nat (index + 1) < k)%nat ->
    exists ys,
      list_slice k all sl index = Some ys /\
      forall j : nat,
        nth_error ys j =
          if _finished sl index
             || (index + Z.of_nat j * _step sl <? 0)
             || (Z.of_nat (List.length all) <=? index)
          then None
          else nth_error all (Z.to_nat (index + Z.of_nat j * _step sl)).
Proof.
  intros Hstep. induction k as [|k IH]; intros index Hk; [lia|].
  simpl. destruct (_finished sl index) eqn:Hfin.
  { exists []. split; [reflexivity|]. intros j. destruct j; reflexivity. }
  destruct (index <? 0) eqn:Hneg.
  { exists []. split; [reflexivity|]. intros j. apply Z.ltb_lt in Hneg.
    replace (index + Z.of_nat j * _step sl <? 0) with true
      by (symmetry; apply Z.ltb_lt; nia).
    destruct j; reflexivity. }
  apply Z.ltb_ge in Hneg.
  destruct (nth_error all (Z.to_nat index)) as [x|] eqn:Hnth.
  - assert (Hin : (Z.to_nat index < List.length all)%nat)
      by (apply nth_error_Some; rewrite Hnth; discriminate).
    destruct (IH (index + _step sl)) as (ys & Hys & Hpoint); [lia|].
    exists (x :: ys). rewrite Hys. split; [reflexivity|].
    replace (Z.of_nat (List.length all) <=? index) with false
      by (symmetry; apply Z.leb_gt; lia).
    intros [|j].
    + simpl. rewrite Z.add_0_r.
      replace (index <? 0) with false by (symmetry; apply Z.ltb_ge; lia).
      rewrite Hnth. reflexivity.
    + simpl nth_error. rewrite Hpoint.
      replace (index + _step sl + Z.of_nat j * _step sl)
        with (index + Z.of_nat (S j) * _step sl) by lia.
      replace (_finished sl (index + _step sl)) with false.
      * replace (Z.of_nat (List.length all) <=? index + _step sl) with false
          by (symmetry; apply Z.leb_gt; lia).
        reflexivity.
      * symmetry. unfold _finished in *. destruct (_stop sl); [|reflexivity].
        apply Z.leb_gt in Hfin. apply Z.leb_gt. lia.
  - exists []. split; [reflexivity|]. intros j.
    apply nth_error_None in Hnth.
    replace (Z.of_nat (List.length all) <=? index) with true
      by (symmetry; apply Z.leb_le; lia).
    rewrite orb_true_r. destruct j; reflexivity.
Qed.

(** X16: a negative step is not refused.  Over a collection that stands
    for the list [all], the walk of a slice with a negative step goes
    backwards: unless [start] is at or past [stop] or past the end of [all],
    it yields the elements at [start], [start + step], ... down to the last
    index that is not below 0, and ends there without an error. *)
Theorem slice_negative_step (all : list T) n fuel self (sl : _Slice) :
  backed_by all n self -> (n <= fuel)%nat ->
  (Z.to_nat (_start sl + 1) < fuel)%nat ->
  _step sl < 0 ->
  exists ys self',
    iterate_slice fuel sl self = Ok ys self' /\
    forall j : nat,
      nth_error ys j =
        if _finished sl (_start sl)
           || (_start sl + Z.of_nat j * _step sl <? 0)
           || (Z.of_nat (List.length all) <=? _start sl)
        then None
        else nth_error all (Z.to_nat (_start sl + Z.of_nat j * _step sl)).
Proof.
  intros Hb Hn Hfuel Hstep.
  destruct (list_slice_negative all sl Hstep fuel (_start sl) Hfuel)
    as (ys & Hwalk & Hpoint).
  destruct (drain_slice_backed all sl fuel fuel self n (_start sl) ys Hb Hn
              Hwalk) as (s' & m & Hd & _ & _).
  exists ys, s'. split; [exact Hd | exact Hpoint].
Qed.

(** *** A [next] that is not a text *)

(** X17: when the response has no links and [meta.pagination.next] is
    there but is not a string ([None], say, to mark the last page), the
    fetch raises [TypeError] from the search instead of ending the pages:
    the cursor is left absent and nothing is appended. *)
Theorem meta_next_not_a_string_raises self (v : json) :
  links (next_response self) = [] ->
  meta_pagination_next (body (next_response self)) = Return v ->
  (forall url, v <> JStr url) ->
  _grow self = Raise TypeError (after_request self) /\
  _next_url (after_request self) = None /\
  _elements (after_request self) = _elements self.
Proof.
  intros Hlinks Hpath Hnot. split; [|split; reflexivity].
  apply get_next_page_cursor_error.
  unfold cursor_of, next_cursor, next_link.
  rewrite Hlinks. simpl Py.truthy. cbv iota. rewrite Hpath.
  destruct (body (next_response self)) as [| | | | | |d];
    try discriminate Hpath.
  unfold meta_pagination_next in Hpath. simpl in Hpath.
  unfold Py.contains.
  destruct (Py.get "meta" d); [|discriminate Hpath]. simpl.
  destruct v; try reflexivity. exfalso. eapply Hnot. reflexivity.
Qed.

(** *** Index access and iteration together *)

Lemma iterate_backed (all : list T) n fuel self :
  backed_by all n self ->
  (List.length all + n < fuel)%nat ->
  exists self',
    iterate fuel self = Ok all self' /\
    _elements self' = all /\ _has_next self' = false /\
    List.length (requests self') = (List.length (requests self) + n)%nat.
Proof.
  intros [s Hnext Hall | s responses pages Hnext Hsrc Hans Hall] Hfuel.
  - exists s. subst all.
    pose proof (repeat_iterate_exhausted fuel s Hnext) as Hpass.
    specialize (Hpass ltac:(lia) O). simpl in Hpass.
    repeat split; try assumption. lia.
  - subst all. rewrite length_app in Hfuel.
    destruct (iterate_rest_of_source fuel s responses pages Hsrc Hans Hnext)
      as (s' & Hrun & Hel & Hno & Hreq); [lia|].
    exists s'. repeat split; assumption.
Qed.

(** X18: pages are fetched once, whatever reads them.  Over a collection
    that stands for the list [all] with [n] responses to come, an index
    access, whether it returns or raises [IndexError], followed by a full
    pass: the pass yields all of [all], and access and pass together have
    issued exactly [n] requests. *)
Theorem getitem_then_iterate (all : list T) n fuel self (i : Z) :
  backed_by all n self ->
  (List.length all + n < fuel)%nat -> 0 <= i ->
  exists self1 self2,
    (__getitem__ fuel self (IdxValue (JInt i)) =
       match nth_error all (Z.to_nat i) with
       | Some element => Ok (Element element) self1
       | None => Raise IndexError self1
       end) /\
    iterate fuel self1 = Ok all self2 /\
    List.length (requests self2) = (List.length (requests self) + n)%nat.
Proof.
  intros Hb Hfuel Hpos.
  destruct (getitem_int_backed all i n fuel self Hb ltac:(lia) Hpos)
    as (s1 & m & Hget & Hb1 & Hm & _ & Hreq).
  destruct (iterate_backed all m fuel s1 Hb1 ltac:(lia))
    as (s2 & Hrun & _ & _ & Hreq2).
  exists s1, s2. simpl. rewrite Hget.
  split; [destruct (nth_error all (Z.to_nat i)); reflexivity|].
  split; [exact Hrun | lia].
Qed.

End Further.

(** ** The model and the theorems on concrete collections *)

Import Mock.

(** The seven courses come out in page order, null entry skipped, in three
    requests. *)
Example courses_iterate :
  exists self',
    iterate 8 courses
    = Ok [name "a"; name "b"; name "c"; name "d"; name "e"; name "f"; name "g"]
        self' /\
    List.length (requests self') = 3%nat.
Proof. eexists. split; run. Qed.

(** The slice from 2 to 5 yields the third to fifth course after two
    requests. *)
Example courses_slice_2_5 :
  __getitem__ 0 courses (IdxSlice (Some 2) (Some 5) None)
  = Ok (View (mk_Slice 2 (Some 5) 1)) courses /\
  exists self',
    iterate_slice 4 (mk_Slice 2 (Some 5) 1) courses
    = Ok [name "c"; name "d"; name "e"] self' /\
    List.length (requests self') = 2%nat.
Proof. split; [run|]. eexists. split; run. Qed.

(** A pass after an index access replays the two pages that access has
    fetched and requests the third only. *)
Example courses_index_then_iterate :
  exists self' self'',
    __getitem__ 2 courses (IdxValue (JInt 4)) = Ok (Element (name "e")) self' /\
    List.length (requests self') = 2%nat /\
    iterate 8 self'
    = Ok [name "a"; name "b"; name "c"; name "d"; name "e"; name "f"; name "g"]
        self'' /\
    List.length (requests self'') = 3%nat.
Proof.
  do 2 eexists. split; [run|]. split; [run|]. split; run.
Qed.

(** The generator of a slice copes with a missing stop: handed the view
    that the constructor refuses to build, it yields every second course. *)
Example courses_every_second :
  exists self',
    iterate_slice 5 (mk_Slice 0 None 2) courses
    = Ok [name "a"; name "c"; name "e"; name "g"] self'.
Proof. eexists. run. Qed.

Lemma getitem_negative_index_witness :
  -1 < 0 /\
  __getitem__ 0 courses (IdxValue (JInt (-1))) = Raise IndexError courses.
Proof.
  split; [lia | apply getitem_negative_index; lia].
Defined.

Lemma getitem_rejects_other_types_witness :
  as_int (JStr "first") = None /\
  __getitem__ 0 courses (IdxValue (JStr "first"))
  = Raise AssertionError courses.
Proof.
  split; [run | apply getitem_rejects_other_types; run].
Defined.

Lemma getitem_idempotent_witness :
  exists self',
    __getitem__ 2 courses (IdxValue (JInt 4))
    = Ok (Element (name "e")) self' /\
    List.length (requests self') = 2%nat /\
    forall fuel',
      __getitem__ fuel' self' (IdxValue (JInt 4))
      = Ok (Element (name "e")) self'.
Proof.
  eexists. split; [run|]. split; [run|].
  apply (getitem_idempotent 2 courses 4 (name "e")). run.
Defined.

Lemma meta_not_a_mapping_raises_witness :
  let self := collection (Some "items") [mkResponse [] (with_meta JNull)] in
  links (next_response self) = [] /\
  _get_next_page self = Raise TypeError (after_request self) /\
  _grow self = Raise TypeError (after_request self).
Proof.
  intros self. split; [run|].
  apply (meta_not_a_mapping_raises self
           [("items", JList [raw "a"]); ("meta", JNull)]); [run | run |].
  left. exists JNull. split; run.
Defined.

Lemma missing_meta_path_ends_pagination_witness :
  let self :=
    collection (Some "items") [mkResponse [] (with_meta (JDict []))] in
  meta_pagination_next (body (next_response self)) = Throw KeyError /\
  _get_next_page self
  = Ok [name "a"] (after_cursor (after_request self) None).
Proof.
  intros self. split; [run|].
  destruct (missing_meta_path_ends_pagination self
              [("items", JList [raw "a"]); ("meta", JDict [])])
    as (_ & Hpage & _); [run | run | run | run |].
  rewrite Hpage. run.
Defined.

Lemma meta_fallback_only_without_links_witness :
  let body := with_meta (meta_next (api ++ "courses?page=2")%string) in
  cursor_of courses (mkResponse [] body) = Return (Some "courses?page=2") /\
  cursor_of courses (mkResponse link_last body) = Return None.
Proof.
  intros body. split.
  - destruct (meta_fallback_only_without_links courses (mkResponse [] body)
                (api ++ "courses?page=2")%string) as [[_ Hmeta] _];
      [run | run |].
    rewrite Hmeta. run.
  - apply (meta_fallback_only_without_links courses
             (mkResponse link_last body) (api ++ "courses?page=2")%string);
      [run | discriminate | run].
Defined.

Lemma unmatched_next_url_fails_witness :
  let url := "https://elsewhere.test/courses?page=2" in
  let self :=
    collection None [mkResponse (link_to url) (JList [raw "a"])] in
  _get_next_page self = Raise AttributeError (after_request self) /\
  _next_url (after_request self) = None.
Proof.
  intros url self.
  assert (Hnowhere : forall p, p = api \/ p = quiz_api -> ~ Re.occurs_in p url).
  { intros p Hp Hocc.
    assert (Hsome : exists g, Re.search api quiz_api url = Some g).
    { apply occurs_search_some.
      destruct Hp as [->| ->]; [left|right]; exact Hocc. }
    destruct Hsome as [g Hg]. vm_compute in Hg. discriminate Hg. }
  destruct (unmatched_next_url_fails self
              (header_link [("url", url); ("rel", "next")]) url)
    as [Hfail _]; [run | run |].
  destruct Hfail as (Hpage & _ & Hurl & _).
  - apply Hnowhere. left. reflexivity.
  - apply Hnowhere. right. reflexivity.
  - split; [exact Hpage | exact Hurl].
Defined.

Lemma iteration_over_finite_source_witness :
  exists self',
    repeat_iterate 11 2 courses
    = Ok [name "a"; name "b"; name "c"; name "d"; name "e"; name "f"; name "g"]
        self' /\
    _elements self'
    = [name "a"; name "b"; name "c"; name "d"; name "e"; name "f"; name "g"] /\
    _has_next self' = false /\
    List.length (requests self') = 3%nat.
Proof.
  apply (iteration_over_finite_source (fun d => d)
           (scripted api quiz_api three_pages) "GET" "courses" None None None
           [] three_pages
           [[name "a"; name "b"; name "c"]; [name "d"; name "e"];
            [name "f"; name "g"]] 11 2).
  - eapply source_more; [run | run |].
    eapply source_more; [run | run |].
    apply source_last; run.
  - simpl. repeat (intros _; split; [reflexivity|]). exact I.
  - simpl. lia.
Defined.

(** C2, as stated, fails: a response whose links hold no [next] relation
    but are not empty leaves the cursor absent although the body carries
    [meta.pagination.next]. *)
Lemma links_without_next_ignore_meta :
  ~ (forall (r : Response) (url : string),
        Py.get "next" (links r) = None ->
        meta_pagination_next (body r) = Return (JStr url) ->
        next_link r = Return (Some [("url", JStr url); ("rel", JStr "next")])).
Proof.
  intros Hclaim.
  pose (r := mkResponse link_last
                (with_meta (meta_next (api ++ "courses?page=2")%string))).
  assert (Hlink : next_link r
            = Return (Some [("url", JStr (api ++ "courses?page=2")%string);
                            ("rel", JStr "next")])).
  { apply Hclaim; run. }
  vm_compute in Hlink. discriminate Hlink.
Qed.

(** C5, as stated, fails: a next-page URL that starts with neither base URL
    but contains one further on is accepted, and the fetch returns. *)
Lemma base_url_found_inside_next_url :
  ~ (forall (self : PaginatedList (dict json) (list Response))
        (link : dict json) (url : string),
        next_link (next_response self) = Return (Some link) ->
        Py.get "url" link = Some (JStr url) ->
        Re.strip_prefix (base_url (_requester self)) url = None ->
        Re.strip_prefix (new_quizzes_url (_requester self)) url = None ->
        exists e self', _get_next_page self = Raise e self').
Proof.
  intros Hclaim.
  pose (url := ("https://mirror.test/?to=" ++ api ++ "courses?page=2")%string).
  destruct (Hclaim
              (collection None [mkResponse (link_to url) (JList [raw "a"])])
              (header_link [("url", url); ("rel", "next")]) url)
    as (e & self' & Hraise); [run | run | run | run |].
  vm_compute in Hraise. discriminate Hraise.
Qed.

(** C6, as stated, fails: with no root configured, the loop over a body
    that is a dictionary visits its keys, and the fetch raises on the first
    of them. *)
Lemma missing_meta_path_fetch_raises :
  ~ (forall (self : PaginatedList (dict json) (list Response)) (d : dict json),
        links (next_response self) = [] ->
        body (next_response self) = JDict d ->
        Py.contains "meta" d = true ->
        meta_pagination_next (body (next_response self)) = Throw KeyError ->
        exists content self',
          _get_next_page self = Ok content self' /\ _next_url self' = None).
Proof.
  intros Hclaim.
  destruct (Hclaim
              (collection None [mkResponse [] (JDict [("meta", JDict [])])])
              [("meta", JDict [])])
    as (content & self' & Hok & _); [run | run | run | run |].
  vm_compute in Hok. discriminate Hok.
Qed.

(** ** The further properties on concrete collections *)

Import Cases.

Lemma courses_backed : backed_by seven 3 courses.
Proof.
  apply (backed_pending seven courses three_pages seven_pages).
  - run.
  - eapply source_more; [run | run |].
    eapply source_more; [run | run |].
    apply source_last; run.
  - simpl. repeat (intros _; split; [reflexivity|]). exact I.
  - run.
Qed.

Lemma update_overrides_witness :
  let raw_item := [("name", JStr "a"); ("course", JInt 1)] in
  let extra := [("course", JInt 7); ("term", JStr "x")] in
  NoDup (map fst extra) /\
  Py.get "course" (Py.update raw_item extra) = Some (JInt 7) /\
  Py.get "name" (Py.update raw_item extra) = Some (JStr "a") /\
  Py.get "term" (Py.update raw_item extra) = Some (JStr "x").
Proof.
  intros raw_item extra.
  assert (Hnodup : NoDup (map fst extra)).
  { repeat constructor; simpl; intuition discriminate. }
  split; [exact Hnodup|].
  pose proof (update_overrides raw_item extra Hnodup) as Hget.
  split; [|split]; rewrite Hget; run.
Defined.

Lemma cursor_strips_base_url_witness :
  cursor_of courses
    (mkResponse (link_to (api ++ "courses?page=2")%string) (JList []))
  = Return (Some "courses?page=2") /\
  cursor_of courses
    (mkResponse (link_to (quiz_api ++ "quizzes?page=2")%string) (JList []))
  = Return (Some "quizzes?page=2").
Proof.
  split.
  - destruct (cursor_strips_base_url courses
                (mkResponse (link_to (api ++ "courses?page=2")%string)
                   (JList []))
                [("url", (api ++ "courses?page=2")%string); ("rel", "next")]
                "courses?page=2") as [Hprimary _]; [run | run |].
    apply Hprimary. run.
  - destruct (cursor_strips_base_url courses
                (mkResponse (link_to (quiz_api ++ "quizzes?page=2")%string)
                   (JList []))
                [("url", (quiz_api ++ "quizzes?page=2")%string);
                 ("rel", "next")]
                "quizzes?page=2") as [_ Hquizzes]; [run | run |].
    apply Hquizzes; run.
Defined.

Lemma search_sound_witness :
  let url := ("https://mirror.test/?to=" ++ api ++ "courses?page=2")%string in
  Re.search api quiz_api url = Some "courses?page=2" /\
  one_line "courses?page=2" = true /\
  exists before p rest,
    (p = api \/ p = quiz_api) /\
    url = (before ++ p ++ "courses?page=2" ++ rest)%string /\
    (rest = EmptyString \/ exists t, rest = String Re.newline t).
Proof.
  intros url. split; [run|].
  apply (search_sound api quiz_api url "courses?page=2"). run.
Defined.




Lemma failed_cursor_exhausts_witness :
  let self' := after_request stray_after_first in
  _elements stray_after_first = [name "a"; name "b"] /\
  _grow stray_after_first = Raise AttributeError self' /\
  repeat_iterate 3 1 self' = Ok [name "a"; name "b"] self' /\
  __getitem__ 3 self' (IdxValue (JInt 2)) = Raise IndexError self'.
Proof.
  intros self'. split; [run|].
  destruct (failed_cursor_exhausts stray_after_first AttributeError)
    as (Hgrow & Hpass & Hindex); [run|].
  split; [exact Hgrow|]. split.
  - apply (Hpass 3%nat 1%nat). vm_compute. lia.
  - apply (Hindex 3%nat 2). vm_compute. discriminate.
Defined.

Lemma root_unwrapping_witness :
  _grow no_items
  = Raise ValueError (after_cursor (after_request no_items) None) /\
  let served :=
    collection (Some "items") [mkResponse link_last (with_meta (JDict []))] in
  _grow served
  = Ok [name "a"]
      (extend (after_cursor (after_request served) None) [name "a"]).
Proof.
  split.
  - destruct (root_unwrapping no_items "i" "tems"
                [("data", JList [raw "a"])] None) as [Hmissing _];
      [run | run | run |].
    apply Hmissing. run.
  - intros served.
    destruct (root_unwrapping served "i" "tems"
                [("items", JList [raw "a"]); ("meta", JDict [])] None)
      as [_ Hpresent]; [run | run | run |].
    apply (Hpresent [raw "a"]); run.
Defined.

Lemma getitem_over_source_witness :
  (exists self',
      __getitem__ 3 courses (IdxValue (JInt 4))
      = Ok (Element (name "e")) self' /\
      (List.length (requests self') <= 3)%nat) /\
  (exists self',
      __getitem__ 3 courses (IdxValue (JInt 9)) = Raise IndexError self' /\
      _elements self' = seven /\ _has_next self' = false /\
      List.length (requests self') = 3%nat).
Proof.
  split.
  - destruct (getitem_over_source seven 3 3 courses 4 courses_backed)
      as (self' & Hget & Hreq & _); [lia | lia |].
    exists self'. split; [exact Hget | exact Hreq].
  - destruct (getitem_over_source seven 3 3 courses 9 courses_backed)
      as (self' & Hget & _ & Hout); [lia | lia |].
    exists self'. split; [exact Hget|]. apply Hout. reflexivity.
Defined.

Lemma slice_over_source_witness :
  exists self',
    iterate_slice 8 (mk_Slice 2 (Some 5) 1) courses
    = Ok [name "c"; name "d"; name "e"] self'.
Proof.
  destruct (slice_over_source seven 3 8 courses (mk_Slice 2 (Some 5) 1)
              courses_backed)
    as (ys & self' & Hrun & _ & Hsegment);
    [lia | simpl; lia | simpl; lia | simpl; lia |].
  exists self'. rewrite (Hsegment 5 eq_refl eq_refl) in Hrun. exact Hrun.
Defined.

Lemma slice_within_store_witness :
  _has_next courses_read_to_4 = true /\
  exists ys,
    iterate_slice 6 (mk_Slice 1 (Some 4) 2) courses_read_to_4
    = Ok ys courses_read_to_4 /\
    slice_of (_elements courses_read_to_4) (mk_Slice 1 (Some 4) 2) ys.
Proof.
  split; [run|].
  apply (slice_within_store 6 courses_read_to_4 (mk_Slice 1 (Some 4) 2) 4).
  - simpl. lia.
  - simpl. lia.
  - reflexivity.
  - vm_compute. discriminate.
  - vm_compute. lia.
Defined.

Lemma slice_negative_step_witness :
  exists ys self',
    iterate_slice 5 (mk_Slice 3 (Some 10) (-2)) courses = Ok ys self' /\
    nth_error ys 0 = Some (name "d") /\
    nth_error ys 1 = Some (name "b") /\
    nth_error ys 2 = None.
Proof.
  destruct (slice_negative_step seven 3 5 courses (mk_Slice 3 (Some 10) (-2))
              courses_backed)
    as (ys & self' & Hrun & Hpoint);
    [lia | simpl; lia | simpl; lia |].
  exists ys, self'. split; [exact Hrun|]. repeat split.
  - exact (Hpoint 0%nat).
  - exact (Hpoint 1%nat).
  - exact (Hpoint 2%nat).
Defined.

Lemma meta_next_not_a_string_raises_witness :
  meta_pagination_next (body (next_response null_next)) = Return JNull /\
  _grow null_next = Raise TypeError (after_request null_next).
Proof.
  split; [run|].
  apply (meta_next_not_a_string_raises null_next JNull); [run | run |].
  intros url H. discriminate H.
Defined.

Lemma getitem_then_iterate_witness :
  exists self1 self2,
    __getitem__ 11 courses (IdxValue (JInt 4))
    = Ok (Element (name "e")) self1 /\
    iterate 11 self1 = Ok seven self2 /\
    List.length (requests self2) = 3%nat.
Proof.
  destruct (getitem_then_iterate seven 3 11 courses 4 courses_backed)
    as (self1 & self2 & Hget & Hrun & Hreq); [simpl; lia | lia |].
  exists self1, self2. repeat split; assumption.
Defined.

Lemma parameters_on_first_request_only_witness :
  first_request_only courses /\
  ends_in first_request_only (iterate 8 courses).
Proof.
  destruct (@parameters_on_first_request_only (dict json) (list Response))
    as (Hnew & _ & _ & _ & Hpass & _).
  split; [apply Hnew|]. apply Hpass. apply Hnew.
Defined.
